(** * A JSON-RPC 2.0 protocol engine: message shapes, handshake, capability
    gating and log-level filtering.

    The development follows the TypeScript sources:
    - [types.ts]: protocol constants, the four JSON-RPC message schemas and
      their classifiers, the error codes, the logging levels;
    - [__mocks__/client.ts]: the initiator used by the test-suite;
    - [server/index.test.ts]: what the suite requires of the responder.

    The responder ([Server]) and the engine it extends ([Protocol]) are not
    among the sources; where a property needs them they are modelled from
    the specification and run against the suite's expectations. *)

From Stdlib Require Import ZArith List String Bool Lia.
From stdpp Require Import gmap strings.

Set Warnings "-register-all".
Import ListNotations.
Local Open Scope string_scope.
Local Open Scope Z_scope.

(** ** JavaScript values *)

(** A JavaScript number: NaN, an infinity, or the dyadic rational
    [m * 2^e].  Every IEEE-754 double is one of these (the two zeros are
    identified, as [===] does). *)
Inductive number :=
| NaN
| Infinity (negative : bool)
| Dyadic (m e : Z).

(** An integer as a number. *)
Definition num (n : Z) : number := Dyadic n 0.

(** [Number.isInteger]. *)
Definition Number_isInteger (n : number) : bool :=
  match n with
  | Dyadic m e => if 0 <=? e then true else m mod 2 ^ (- e) =? 0
  | _ => false
  end.

(** [a === b] on numbers. *)
Definition Number_eqb (a b : number) : bool :=
  match a, b with
  | Dyadic m1 e1, Dyadic m2 e2 =>
      let e := Z.min e1 e2 in
      m1 * 2 ^ (e1 - e) =? m2 * 2 ^ (e2 - e)
  | Infinity s1, Infinity s2 => Bool.eqb s1 s2
  | _, _ => false
  end.

(** A value as it is handed to a transport callback: what [JSON.parse]
    produces, plus [undefined] for values built in the program. An object
    is the list of its own enumerable properties. *)
Inductive value :=
| VUndefined
| VNull
| VBool (b : bool)
| VNum (n : number)
| VStr (s : string)
| VArr (items : list value)
| VObj (props : list (string * value)).

Abbreviation props := (list (string * value)).

(** [o[key]]: the first property of that name, [undefined] when there is
    none. *)
Fixpoint get (o : props) (key : string) : value :=
  match o with
  | [] => VUndefined
  | (k, v) :: rest => if String.eqb k key then v else get rest key
  end.

(** [key in o]. *)
Definition has (o : props) (key : string) : bool :=
  existsb (String.eqb key) (map fst o).

(** [v[key]] on any value ([undefined] unless [v] is an object). *)
Definition prop (v : value) (key : string) : value :=
  match v with
  | VObj o => get o key
  | _ => VUndefined
  end.

(** [key in v] on any value. *)
Definition has_key (v : value) (key : string) : bool :=
  match v with
  | VObj o => has o key
  | _ => false
  end.

(** JavaScript truthiness, as in [message.result && ...] and [!caps.tools]. *)
Definition truthy (v : value) : bool :=
  match v with
  | VUndefined | VNull | VBool false | VNum NaN | VStr "" => false
  | VNum (Dyadic m _) => negb (m =? 0)
  | _ => true
  end.

(** [v === n] for a number literal [n]. *)
Definition is_number (v : value) (n : Z) : bool :=
  match v with
  | VNum x => Number_eqb x (num n)
  | _ => false
  end.

(** A synchronous call either returns or throws an [Error] with a message. *)
Inductive Outcome (A : Type) :=
| Returns (a : A)
| Throws (error : string).

Arguments Returns {A} a.
Arguments Throws {A} error.

(** ** The schema validator (zod), as far as the sources use it *)

Module z.

(** A schema is its [safeParse(...).success]. *)
Definition Schema := value -> bool.

Definition string : Schema :=
  fun v => match v with VStr _ => true | _ => false end.

(** [z.number()] refuses NaN. *)
Definition number : Schema :=
  fun v => match v with VNum NaN => false | VNum _ => true | _ => false end.

(** [z.number().int()]. *)
Definition int (s : Schema) : Schema :=
  fun v => s v && match v with VNum n => Number_isInteger n | _ => false end.

Definition literal (lit : String.string) : Schema :=
  fun v => match v with VStr s => String.eqb s lit | _ => false end.

Definition unknown : Schema := fun _ => true.

Definition optional (s : Schema) : Schema :=
  fun v => match v with VUndefined => true | _ => s v end.

Definition union (options : list Schema) : Schema :=
  fun v => existsb (fun s => s v) options.

Definition enum (options : list String.string) : Schema :=
  fun v => match v with
           | VStr s => existsb (String.eqb s) options
           | _ => false
           end.

(** What an object schema does with keys outside its shape. *)
Inductive UnknownKeys := strip | passthrough_keys | strict_keys.

Record ZodObject := {
  shape : list (String.string * Schema);
  unknownKeys : UnknownKeys;
}.

(** [z.object({...})]: unknown keys are stripped by default. *)
Definition object (fields : list (String.string * Schema)) : ZodObject :=
  {| shape := fields; unknownKeys := strip |}.

Definition passthrough (o : ZodObject) : ZodObject :=
  {| shape := shape o; unknownKeys := passthrough_keys |}.

Definition strict (o : ZodObject) : ZodObject :=
  {| shape := shape o; unknownKeys := strict_keys |}.

(** The keys of the input that the shape does not name. *)
Definition extraKeys (o : ZodObject) (input : props) : list String.string :=
  List.filter (fun k => negb (existsb (String.eqb k) (map fst (shape o))))
         (map fst input).

(** Parsing an object: the input is a plain object, every key of the
    shape validates the property of that name, and a strict schema finds
    no unrecognized key. *)
Definition parse (o : ZodObject) : Schema :=
  fun v =>
    match v with
    | VObj input =>
        forallb (fun '(k, s) => (s : Schema) (get input k)) (shape o)
        && match unknownKeys o with
           | strict_keys =>
               match extraKeys o input with [] => true | _ => false end
           | _ => true
           end
    | _ => false
    end.

(** [z.object({}).passthrough()], any plain object. *)
Definition anyObject : Schema := parse (passthrough (object [])).

End z.

(** ** [types.ts] *)

Definition LATEST_PROTOCOL_VERSION : string := "2025-06-18".
Definition DEFAULT_NEGOTIATED_PROTOCOL_VERSION : string := "2025-03-26".
Definition SUPPORTED_PROTOCOL_VERSIONS : list string :=
  [ LATEST_PROTOCOL_VERSION; "2025-03-26"; "2024-11-05"; "2024-10-07" ].

Definition JSONRPC_VERSION : string := "2.0".

(** [z.union([z.string(), z.number().int()])], the schema of a request id
    and of a progress token. *)
Definition RequestIdSchema : z.Schema :=
  z.union [ z.string; z.int z.number ].

Definition JSONRPCRequestSchema : z.ZodObject :=
  z.strict (z.object
    [ ("jsonrpc", z.literal JSONRPC_VERSION);
      ("id", RequestIdSchema);
      ("method", z.string);
      ("params", z.optional (z.parse (z.passthrough (z.object
         [ ("_meta", z.optional (z.parse (z.passthrough (z.object
              [ ("progressToken", z.optional RequestIdSchema) ])))) ])))) ]).

Definition isJSONRPCRequest (v : value) : bool :=
  z.parse JSONRPCRequestSchema v.

Definition JSONRPCNotificationSchema : z.ZodObject :=
  z.strict (z.object
    [ ("jsonrpc", z.literal JSONRPC_VERSION);
      ("method", z.string);
      ("params", z.optional (z.parse (z.passthrough (z.object
         [ ("_meta", z.optional z.anyObject) ])))) ]).

Definition isJSONRPCNotification (v : value) : bool :=
  z.parse JSONRPCNotificationSchema v.

Definition JSONRPCResponseSchema : z.ZodObject :=
  z.strict (z.object
    [ ("jsonrpc", z.literal JSONRPC_VERSION);
      ("id", RequestIdSchema);
      ("result", z.parse (z.passthrough (z.object
         [ ("_meta", z.optional z.anyObject) ]))) ]).

Definition isJSONRPCResponse (v : value) : bool :=
  z.parse JSONRPCResponseSchema v.

(** The error codes, with the number each member of the enum stands for. *)
Module ErrorCode.

Inductive t :=
| ConnectionClosed
| RequestTimeout
| ParseError
| InvalidRequest
| MethodNotFound
| InvalidParams
| InternalError.

Definition code (c : t) : Z :=
  match c with
  | ConnectionClosed => -32000
  | RequestTimeout => -32001
  | ParseError => -32700
  | InvalidRequest => -32600
  | MethodNotFound => -32601
  | InvalidParams => -32602
  | InternalError => -32603
  end.

(** The members by name, in declaration order. *)
Definition members : list (string * t) :=
  [ ("ConnectionClosed", ConnectionClosed);
    ("RequestTimeout", RequestTimeout);
    ("ParseError", ParseError);
    ("InvalidRequest", InvalidRequest);
    ("MethodNotFound", MethodNotFound);
    ("InvalidParams", InvalidParams);
    ("InternalError", InternalError) ].

End ErrorCode.

Definition JSONRPCErrorSchema : z.ZodObject :=
  z.strict (z.object
    [ ("jsonrpc", z.literal JSONRPC_VERSION);
      ("id", RequestIdSchema);
      ("error", z.parse (z.object
         [ ("code", z.int z.number);
           ("message", z.string);
           ("data", z.optional z.unknown) ])) ]).

Definition isJSONRPCError (v : value) : bool :=
  z.parse JSONRPCErrorSchema v.

(** The four message shapes and the classifier of each. *)
Inductive Shape := Request | Notification | Response | ErrorResponse.

Definition classifier (shape : Shape) : value -> bool :=
  match shape with
  | Request => isJSONRPCRequest
  | Notification => isJSONRPCNotification
  | Response => isJSONRPCResponse
  | ErrorResponse => isJSONRPCError
  end.

(** The shapes whose classifier accepts a value. *)
Definition shapes_of (v : value) : list Shape :=
  List.filter (fun shape => classifier shape v)
    [ Request; Notification; Response; ErrorResponse ].

Definition InitializeRequestSchema : z.ZodObject :=
  z.object
    [ ("method", z.literal "initialize");
      ("params", z.parse (z.passthrough (z.object
         [ ("_meta", z.optional (z.parse (z.passthrough (z.object
              [ ("progressToken", z.optional RequestIdSchema) ]))));
           ("protocolVersion", z.string);
           ("capabilities", z.anyObject);
           ("clientInfo", z.anyObject) ]))) ].

Definition isInitializeRequest (v : value) : bool :=
  z.parse InitializeRequestSchema v.

Definition InitializedNotificationSchema : z.ZodObject :=
  z.object
    [ ("method", z.literal "notifications/initialized");
      ("params", z.optional (z.parse (z.passthrough (z.object
         [ ("_meta", z.optional z.anyObject) ])))) ].

Definition isInitializedNotification (v : value) : bool :=
  z.parse InitializedNotificationSchema v.

(** [LoggingLevelSchema.options], least severe first. *)
Definition LoggingLevel_options : list string :=
  [ "debug"; "info"; "notice"; "warning"; "error"; "critical"; "alert";
    "emergency" ].

Definition LoggingLevelSchema : z.Schema := z.enum LoggingLevel_options.

Definition SetLevelRequestSchema : z.ZodObject :=
  z.object
    [ ("method", z.literal "logging/setLevel");
      ("params", z.parse (z.passthrough (z.object
         [ ("_meta", z.optional (z.parse (z.passthrough (z.object
              [ ("progressToken", z.optional RequestIdSchema) ]))));
           ("level", z.enum
              [ "debug"; "info"; "notice"; "warning"; "error"; "critical";
                "alert"; "emergency" ]) ]))) ].

(** [z.record(valueSchema)]: a plain object each of whose properties
    validates. *)
Definition z_record (s : z.Schema) : z.Schema :=
  fun v =>
    match v with
    | VObj input => forallb (fun '(k, _) => s (get input k)) input
    | _ => false
    end.

Definition JSONRPCMessageSchema : z.Schema :=
  z.union
    [ z.parse JSONRPCRequestSchema;
      z.parse JSONRPCNotificationSchema;
      z.parse JSONRPCResponseSchema;
      z.parse JSONRPCErrorSchema ].

Definition EmptyResultSchema : z.ZodObject :=
  z.passthrough (z.object [ ("_meta", z.optional z.anyObject) ]).

Definition CallToolRequestSchema : z.ZodObject :=
  z.object
    [ ("method", z.literal "tools/call");
      ("params", z.parse (z.passthrough (z.object
         [ ("_meta", z.optional (z.parse (z.passthrough (z.object
              [ ("progressToken", z.optional RequestIdSchema) ]))));
           ("name", z.string);
           ("arguments", z.optional (z_record z.unknown)) ]))) ].

Definition LoggingMessageNotificationSchema : z.ZodObject :=
  z.object
    [ ("method", z.literal "notifications/message");
      ("params", z.parse (z.passthrough (z.object
         [ ("_meta", z.optional z.anyObject);
           ("level", z.enum
              [ "debug"; "info"; "notice"; "warning"; "error"; "critical";
                "alert"; "emergency" ]);
           ("logger", z.optional z.string);
           ("data", z.unknown) ]))) ].

Definition ProgressNotificationSchema : z.ZodObject :=
  z.object
    [ ("method", z.literal "notifications/progress");
      ("params", z.parse (z.passthrough (z.object
         [ ("_meta", z.optional z.anyObject);
           ("progressToken", z.union [ z.string; z.int z.number ]);
           ("progress", z.number);
           ("total", z.optional z.number);
           ("message", z.optional z.string) ]))) ].

(** ** Wire framing (specification, section 6) *)

(** Modelled from the spec: the framing of [Protocol] (shared/protocol.ts,
    not among the sources), "JSON objects with jsonrpc: 2.0 plus one of
    Request {id, method, params?}, Notification {method, params?},
    Response {id, result}, ErrorResponse {id, error: {code, message}}". *)
Definition jsonrpc_request (id : Z) (method : string) (params : option value)
  : value :=
  VObj ([ ("jsonrpc", VStr JSONRPC_VERSION); ("id", VNum (num id));
          ("method", VStr method) ]
        ++ match params with Some p => [ ("params", p) ] | None => [] end).

Definition jsonrpc_notification (method : string) (params : option value)
  : value :=
  VObj ([ ("jsonrpc", VStr JSONRPC_VERSION); ("method", VStr method) ]
        ++ match params with Some p => [ ("params", p) ] | None => [] end).

Definition jsonrpc_response (id result : value) : value :=
  VObj [ ("jsonrpc", VStr JSONRPC_VERSION); ("id", id); ("result", result) ].

Definition jsonrpc_error (id : value) (c : ErrorCode.t) (msg : string)
  : value :=
  VObj [ ("jsonrpc", VStr JSONRPC_VERSION); ("id", id);
         ("error", VObj [ ("code", VNum (num (ErrorCode.code c)));
                          ("message", VStr msg) ]) ].

(** [{ name, version }], the identity given to a constructor. *)
Record Implementation := {
  name : string;
  version : string;
}.

Definition Implementation_value (i : Implementation) : value :=
  VObj [ ("name", VStr (name i)); ("version", VStr (version i)) ].

(** ** [__mocks__/client.ts] *)

Module Client.

(** What the client asks of the engine it extends: [this.request(...)] and
    [this.notification(...)], with the request object it passes. *)
Inductive Call :=
| request (method : string) (params : option value)
| notification (method : string).

(** The fields of the class, whether [connect] is suspended on its
    [await this.request(...)], and the calls made so far. *)
Record t := {
  _clientInfo : Implementation;
  _capabilities : option value;
  _serverInfo : option value;
  _serverCapabilities : option value;
  connecting : bool;
  calls : list Call;
}.

(** [new Client(clientInfo, { capabilities })]: the two private fields
    declared without an initializer start [undefined]. *)
Definition new (clientInfo : Implementation) (capabilities : option value)
  : t :=
  {| _clientInfo := clientInfo;
     _capabilities := capabilities;
     _serverInfo := None;
     _serverCapabilities := None;
     connecting := false;
     calls := [] |}.

(** The three capability checks of the engine are overridden with empty
    bodies. *)
Definition assertCapabilityForMethod (c : t) (method : string)
  : Outcome unit := Returns tt.

Definition assertNotificationCapability (c : t) (method : string)
  : Outcome unit := Returns tt.

Definition assertRequestHandlerCapability (c : t) (method : string)
  : Outcome unit := Returns tt.

Definition call (c : t) (k : Call) : t :=
  {| _clientInfo := _clientInfo c;
     _capabilities := _capabilities c;
     _serverInfo := _serverInfo c;
     _serverCapabilities := _serverCapabilities c;
     connecting := connecting c;
     calls := calls c ++ [ k ] |}.

(** [connect], once the engine has attached the transport and up to the
    suspension on its request: the initialize request is issued with the
    latest version and [this._capabilities || {}]. *)
Definition connect (c : t) : t :=
  let k := request "initialize" (Some (VObj
             [ ("protocolVersion", VStr LATEST_PROTOCOL_VERSION);
               ("capabilities",
                 match _capabilities c with Some v => v | None => VObj [] end);
               ("clientInfo", Implementation_value (_clientInfo c)) ])) in
  {| _clientInfo := _clientInfo c;
     _capabilities := _capabilities c;
     _serverInfo := _serverInfo c;
     _serverCapabilities := _serverCapabilities c;
     connecting := true;
     calls := calls c ++ [ k ] |}.

(** The schema [connect] gives for the result of its request. *)
Definition InitializeResultSchema : z.ZodObject :=
  z.passthrough (z.object
    [ ("protocolVersion", z.string);
      ("capabilities", z.anyObject);
      ("serverInfo", z.parse (z.passthrough (z.object
         [ ("name", z.string);
           ("version", z.string);
           ("title", z.optional z.string) ]))) ]).

(** Modelled from the spec: [request] of the engine ([Protocol],
    shared/protocol.ts, not among the sources) resolves only with a value
    that the result schema given to it accepts (section 4.2, "validate
    payload against resultSchema, then resolve"); a settlement with any
    other value rejects. *)
Definition resolves (resultSchema : z.ZodObject) (settled : Outcome value)
  : Outcome value :=
  match settled with
  | Returns result =>
      if z.parse resultSchema result then Returns result
      else Throws "Invalid result"
  | Throws e => Throws e
  end.

(** [connect] resumes when its request settles. [initResponse] is what
    [await this.request(...)] resolves with: from it the server's identity
    and capabilities are recorded and the initialized notification is
    sent. On a rejection [connect] throws and the fields are left as they
    were. *)
Definition connect_resume (c : t) (settled : Outcome value) : t :=
  if connecting c then
    match resolves InitializeResultSchema settled with
    | Returns initResponse =>
        {| _clientInfo := _clientInfo c;
           _capabilities := _capabilities c;
           _serverInfo := Some (prop initResponse "serverInfo");
           _serverCapabilities := Some (prop initResponse "capabilities");
           connecting := false;
           calls := calls c ++ [ notification "notifications/initialized" ] |}
    | Throws _ =>
        {| _clientInfo := _clientInfo c;
           _capabilities := _capabilities c;
           _serverInfo := _serverInfo c;
           _serverCapabilities := _serverCapabilities c;
           connecting := false;
           calls := calls c |}
    end
  else c.

Definition setLoggingLevel (c : t) (level : string) : t :=
  call c (request "logging/setLevel" (Some (VObj [ ("level", VStr level) ]))).

Definition listTools (c : t) : t := call c (request "tools/list" None).
Definition listPrompts (c : t) : t := call c (request "prompts/list" None).
Definition listResources (c : t) : t := call c (request "resources/list" None).
Definition listResourceTemplates (c : t) : t :=
  call c (request "resources/templates/list" None).
Definition readResource (c : t) (params : value) : t :=
  call c (request "resources/read" (Some params)).
Definition callTool (c : t) (params : value) : t :=
  call c (request "tools/call" (Some params)).

Definition getServerVersion (c : t) : option value := _serverInfo c.

Definition getServerCapabilities (c : t) : option value :=
  _serverCapabilities c.

(** What can happen at a client: a method of the class is called, or the
    engine settles the initialize request of [connect]. The results of
    the other requests are returned to their callers and touch no field. *)
Inductive event :=
| call_connect
| initialize_settled (settled : Outcome value)
| call_setLoggingLevel (level : string)
| call_listTools
| call_listPrompts
| call_listResources
| call_listResourceTemplates
| call_readResource (params : value)
| call_callTool (params : value).

Definition step (c : t) (e : event) : t :=
  match e with
  | call_connect => connect c
  | initialize_settled r => connect_resume c r
  | call_setLoggingLevel level => setLoggingLevel c level
  | call_listTools => listTools c
  | call_listPrompts => listPrompts c
  | call_listResources => listResources c
  | call_listResourceTemplates => listResourceTemplates c
  | call_readResource params => readResource c params
  | call_callTool params => callTool c params
  end.

Definition run (c : t) (es : list event) : t := fold_left step es c.

(** An event that delivers a result to the suspended [connect]. *)
Definition delivers_result (e : event) : bool :=
  match e with
  | initialize_settled (Returns _) => true
  | _ => false
  end.

End Client.

(** The request object a call hands to the engine: [{ method }] or
    [{ method, params }]. *)
Definition request_object (k : Client.Call) : value :=
  match k with
  | Client.request method (Some params) =>
      VObj [ ("method", VStr method); ("params", params) ]
  | Client.request method None => VObj [ ("method", VStr method) ]
  | Client.notification method => VObj [ ("method", VStr method) ]
  end.

(** The object handed to the engine by the last call of a client. *)
Definition last_request (c : Client.t) : value :=
  match List.last (map Some (Client.calls c)) None with
  | Some k => request_object k
  | None => VUndefined
  end.

(** Whether a call is the initialized notification. *)
Definition is_initialized (k : Client.Call) : bool :=
  match k with
  | Client.notification method =>
      String.eqb method "notifications/initialized"
  | Client.request _ _ => false
  end.

(** How often the initialized notification has been sent. *)
Definition initialized_sent (c : Client.t) : nat :=
  length (List.filter is_initialized (Client.calls c)).

(** The handshake state of a client: the identity and the capabilities of
    the server are recorded together, exactly when the initialized
    notification has been sent. *)
Definition handshake_consistent (c : Client.t) : Prop :=
  (is_Some (Client.getServerVersion c)
   <-> is_Some (Client.getServerCapabilities c))
  /\ (is_Some (Client.getServerCapabilities c)
      <-> (0 < initialized_sent c)%nat).

(** The order of the handshake in the call log: while [connect] is
    suspended an initialize request has been issued, and every initialized
    notification comes after one. *)
Definition handshake_ordered (c : Client.t) : Prop :=
  (Client.connecting c = true ->
   exists params, In (Client.request "initialize" params) (Client.calls c))
  /\ forall before rest,
       Client.calls c
       = (before ++ Client.notification "notifications/initialized" :: rest)%list ->
       exists params, In (Client.request "initialize" params) before.

(** How many of the events deliver a result that [connect] accepts is
    not known without running them; this counts those that deliver any
    result. *)
Definition results_delivered (es : list Client.event) : nat :=
  length (List.filter Client.delivers_result es).

(** ** [server/index.test.ts]: the protocol-version tests *)

Module Tests.

(** What [toEqual] is given in the suite: [expect.any(Object)], a string,
    or an object literal of these. *)
Inductive Expected :=
| any_Object
| exactly (s : string)
| object_of (fields : list (string * Expected)).

(** [expect(v).toEqual(e)]: properties that are [undefined] are ignored,
    every other property of [v] must be expected. *)
Fixpoint toEqual (v : value) (e : Expected) {struct e} : bool :=
  match e with
  | any_Object =>
      match v with VObj _ | VArr _ | VNull => true | _ => false end
  | exactly s =>
      match v with VStr s' => String.eqb s' s | _ => false end
  | object_of fields =>
      match v with
      | VObj o =>
          (fix all (fs : list (string * Expected)) : bool :=
             match fs with
             | [] => true
             | (k, e') :: fs' => toEqual (get o k) e' && all fs'
             end) fields
          && forallb (fun '(k, w) =>
                        match w with
                        | VUndefined => true
                        | _ => existsb (String.eqb k) (map fst fields)
                        end) o
      | _ => false
      end
  end.

(** The server under test: given what [new Server(...)] is given, the
    messages it hands to [serverTransport.send] once
    [serverTransport.onmessage] is called with a message. *)
Definition ServerUnderTest :=
  Implementation -> value -> option string -> value -> list value.

Definition serverInfo : Implementation :=
  {| name := "test server"; version := "1.0" |}.

Definition capabilities : value :=
  VObj [ ("prompts", VObj []); ("resources", VObj []); ("tools", VObj []);
         ("logging", VObj []) ].

(** The initialize request the tests simulate. *)
Definition initialize (protocolVersion : string) : value :=
  VObj [ ("jsonrpc", VStr "2.0");
         ("id", VNum (num 1));
         ("method", VStr "initialize");
         ("params", VObj
            [ ("protocolVersion", VStr protocolVersion);
              ("capabilities", VObj []);
              ("clientInfo", VObj [ ("name", VStr "test client");
                                    ("version", VStr "1.0") ]) ]) ].

(** The result the mocked [send] expects. *)
Definition expected_result (protocolVersion : string)
  (instructions : option string) : Expected :=
  object_of
    ([ ("protocolVersion", exactly protocolVersion);
       ("capabilities", any_Object);
       ("serverInfo", object_of [ ("name", exactly "test server");
                                  ("version", exactly "1.0") ]) ]
     ++ match instructions with
        | Some i => [ ("instructions", exactly i) ]
        | None => []
        end).

(** The mocked [send]: [sendPromise] is resolved by a message whose id is
    1 with a truthy result that equals the expected one. *)
Definition send (expected : Expected) (message : value) : bool :=
  is_number (prop message "id") 1
  && truthy (prop message "result")
  && toEqual (prop message "result") expected.

(** A test passes when [sendPromise] resolves. *)
Definition should_accept_latest_protocol_version (server : ServerUnderTest)
  : bool :=
  existsb
    (send (expected_result LATEST_PROTOCOL_VERSION (Some "Test instructions")))
    (server serverInfo capabilities (Some "Test instructions")
       (initialize LATEST_PROTOCOL_VERSION)).

Definition OLD_VERSION : string := nth 1 SUPPORTED_PROTOCOL_VERSIONS "".

Definition should_accept_supported_older_protocol_version
  (server : ServerUnderTest) : bool :=
  existsb (send (expected_result OLD_VERSION None))
    (server serverInfo capabilities None (initialize OLD_VERSION)).

Definition should_handle_unsupported_protocol_version
  (server : ServerUnderTest) : bool :=
  existsb (send (expected_result LATEST_PROTOCOL_VERSION None))
    (server serverInfo capabilities None (initialize "invalid-version")).

(** A message that answers request [id] with a result. *)
Definition is_result_for (id : Z) (message : value) : bool :=
  is_number (prop message "id") id && truthy (prop message "result").

End Tests.

(** ** The responder *)

Module Server.

(** The transport as the suite mocks it: an optional session identifier
    and what [send] was called with. *)
Record Transport := {
  sessionId : option string;
  sent : list value;
}.

(** Modelled from the spec: the connection states of section 4.4, which
    [Protocol] (shared/protocol.ts) would keep. *)
Inductive State := Unconnected | Connecting | Handshaking | Ready | Closed.

(** Modelled from the spec: an entry of the handler registry of
    [Protocol] (section 3): one of the built-in handlers, which act on the
    server itself, or a function given to [setRequestHandler]. *)
Inductive Handler :=
| initialize_handler
| ping_handler
| setLevel_handler
| user_handler (f : value -> Outcome value).

(** Modelled from the spec: the state of [Server] (server/index.ts) and of
    the [Protocol] it extends (shared/protocol.ts), neither among the
    sources. Section 3: local capabilities fixed at construction, peer
    capabilities absent until the handshake, a handler registry keyed by
    method, a log level per session identifier, the table of outstanding
    outbound request ids, one transport. [_log] is what the error callback
    and the permissive capability check report. *)
Record t := {
  _serverInfo : Implementation;
  _capabilities : value;
  _instructions : option string;
  _enforceStrictCapabilities : bool;
  _clientCapabilities : option value;
  _clientVersion : option value;
  _loggingLevels : gmap (option string) string;
  _requestHandlers : gmap string Handler;
  _requestMessageId : Z;
  _pending : gset Z;
  _transport : option Transport;
  _state : State;
  _log : list string;
}.

(** Field updates. *)
Definition with_client (s : t) (capabilities clientInfo : option value) : t :=
  {| _serverInfo := _serverInfo s; _capabilities := _capabilities s;
     _instructions := _instructions s;
     _enforceStrictCapabilities := _enforceStrictCapabilities s;
     _clientCapabilities := capabilities; _clientVersion := clientInfo;
     _loggingLevels := _loggingLevels s;
     _requestHandlers := _requestHandlers s;
     _requestMessageId := _requestMessageId s; _pending := _pending s;
     _transport := _transport s; _state := _state s; _log := _log s |}.

Definition with_loggingLevels (s : t) (levels : gmap (option string) string)
  : t :=
  {| _serverInfo := _serverInfo s; _capabilities := _capabilities s;
     _instructions := _instructions s;
     _enforceStrictCapabilities := _enforceStrictCapabilities s;
     _clientCapabilities := _clientCapabilities s;
     _clientVersion := _clientVersion s;
     _loggingLevels := levels;
     _requestHandlers := _requestHandlers s;
     _requestMessageId := _requestMessageId s; _pending := _pending s;
     _transport := _transport s; _state := _state s; _log := _log s |}.

Definition with_requestHandlers (s : t) (handlers : gmap string Handler) : t :=
  {| _serverInfo := _serverInfo s; _capabilities := _capabilities s;
     _instructions := _instructions s;
     _enforceStrictCapabilities := _enforceStrictCapabilities s;
     _clientCapabilities := _clientCapabilities s;
     _clientVersion := _clientVersion s;
     _loggingLevels := _loggingLevels s;
     _requestHandlers := handlers;
     _requestMessageId := _requestMessageId s; _pending := _pending s;
     _transport := _transport s; _state := _state s; _log := _log s |}.

Definition with_pending (s : t) (next : Z) (pending : gset Z) : t :=
  {| _serverInfo := _serverInfo s; _capabilities := _capabilities s;
     _instructions := _instructions s;
     _enforceStrictCapabilities := _enforceStrictCapabilities s;
     _clientCapabilities := _clientCapabilities s;
     _clientVersion := _clientVersion s;
     _loggingLevels := _loggingLevels s;
     _requestHandlers := _requestHandlers s;
     _requestMessageId := next; _pending := pending;
     _transport := _transport s; _state := _state s; _log := _log s |}.

Definition with_transport (s : t) (transport : option Transport)
  (state : State) : t :=
  {| _serverInfo := _serverInfo s; _capabilities := _capabilities s;
     _instructions := _instructions s;
     _enforceStrictCapabilities := _enforceStrictCapabilities s;
     _clientCapabilities := _clientCapabilities s;
     _clientVersion := _clientVersion s;
     _loggingLevels := _loggingLevels s;
     _requestHandlers := _requestHandlers s;
     _requestMessageId := _requestMessageId s; _pending := _pending s;
     _transport := transport; _state := state; _log := _log s |}.

Definition with_log (s : t) (line : string) : t :=
  {| _serverInfo := _serverInfo s; _capabilities := _capabilities s;
     _instructions := _instructions s;
     _enforceStrictCapabilities := _enforceStrictCapabilities s;
     _clientCapabilities := _clientCapabilities s;
     _clientVersion := _clientVersion s;
     _loggingLevels := _loggingLevels s;
     _requestHandlers := _requestHandlers s;
     _requestMessageId := _requestMessageId s; _pending := _pending s;
     _transport := _transport s; _state := _state s;
     _log := _log s ++ [ line ] |}.

(** What has been handed to the transport's [send]. *)
Definition transmitted (s : t) : list value :=
  match _transport s with
  | Some transport => sent transport
  | None => []
  end.

(** Modelled from the spec: the engine hands a message to the [send] of
    its transport (section 6). *)
Definition send (s : t) (message : value) : t :=
  match _transport s with
  | Some transport =>
      with_transport s
        (Some {| sessionId := sessionId transport;
                 sent := sent transport ++ [ message ] |})
        (_state s)
  | None => s
  end.

(** Modelled from the spec: the constructor of [Server]. Section 4.4, "a
    built-in ping request handler is always present"; the initialize
    handler; and, for a server that declares logging, the handler of
    logging/setLevel that the log-level tests of the suite rely on. *)
Definition new (serverInfo : Implementation) (capabilities : value)
  (instructions : option string) (enforceStrictCapabilities : bool) : t :=
  {| _serverInfo := serverInfo;
     _capabilities := capabilities;
     _instructions := instructions;
     _enforceStrictCapabilities := enforceStrictCapabilities;
     _clientCapabilities := None;
     _clientVersion := None;
     _loggingLevels := ∅;
     _requestHandlers :=
       (if truthy (prop capabilities "logging")
        then <["logging/setLevel" := setLevel_handler]>
        else fun m => m)
         (<["initialize" := initialize_handler]>
            (<["ping" := ping_handler]> ∅));
     _requestMessageId := 0;
     _pending := ∅;
     _transport := None;
     _state := Unconnected;
     _log := [] |}.

(** Modelled from the spec: the accessors of [Server] for the local and
    the peer capabilities; the suite reads the latter after [connect]. *)
Definition getCapabilities (s : t) : value := _capabilities s.

Definition getClientCapabilities (s : t) : option value :=
  _clientCapabilities s.

(** *** Method calls *)

(** Modelled from the spec: a call of a method of [Server] or [Protocol]
    acts on the server and then returns, or "raises an error
    synchronously" (section 4.3). The server it leaves is kept in both
    cases: what a call did before it threw stays done. *)
Definition Call (A : Type) : Type := t -> t * Outcome A.

Definition ret {A : Type} (a : A) : Call A := fun s => (s, Returns a).

Definition throw {A : Type} (e : string) : Call A := fun s => (s, Throws e).

Definition bind {A B : Type} (c : Call A) (k : A -> Call B) : Call B :=
  fun s =>
    match c s with
    | (s', Returns a) => k a s'
    | (s', Throws e) => (s', Throws e)
    end.

Notation "x <- c ;; k" := (bind c (fun x => k))
  (at level 100, c at next level, right associativity).

(** Reading a field, changing the server, and making a check that may
    throw. *)
Definition read {A : Type} (f : t -> A) : Call A :=
  fun s => (s, Returns (f s)).

Definition update (f : t -> t) : Call unit := fun s => (f s, Returns tt).

Definition check (assertion : t -> Outcome unit) : Call unit :=
  fun s => (s, assertion s).

(** The server that a call leaves. *)
Definition exec {A : Type} (c : Call A) (s : t) : t := fst (c s).

(** A call as its caller sees it: the server that a returning call
    leaves, or the error thrown. *)
Definition outcome (r : t * Outcome unit) : Outcome t :=
  match r with
  | (s', Returns _) => Returns s'
  | (_, Throws e) => Throws e
  end.

(** Modelled from the spec: section 4.4, [connect] "attaches the
    Transport, wires its callbacks, starts it"; "only one Transport may be
    attached at a time". A responder then waits for the handshake. *)
Definition connect_call (transport : Transport) : Call unit :=
  attached <- read _transport ;;
  match attached with
  | Some _ => throw "Already connected to a transport"
  | None => update (fun s => with_transport s (Some transport) Handshaking)
  end.

Definition connect (s : t) (transport : Transport) : Outcome t :=
  outcome (connect_call transport s).

(** Modelled from the spec: section 4.4, [close] "closes the Transport,
    transitions to Closed, rejects all pending requests". *)
Definition close (s : t) : t :=
  with_transport (with_pending s (_requestMessageId s) ∅) None Closed.

(** *** Capability gating (specification, section 4.3) *)

(** The capability a method needs, from a table of methods. *)
Fixpoint required (table : list (string * string)) (method : string)
  : option string :=
  match table with
  | [] => None
  | (m, capability) :: rest =>
      if String.eqb m method then Some capability else required rest method
  end.

(** Modelled from the spec: "registering a handler for tool-listing
    requires this side to have declared tools support"; the suite adds
    prompts, resources and logging. The methods are those of [types.ts]. *)
Definition REQUEST_HANDLER_CAPABILITY : list (string * string) :=
  [ ("logging/setLevel", "logging");
    ("prompts/get", "prompts"); ("prompts/list", "prompts");
    ("resources/list", "resources");
    ("resources/templates/list", "resources");
    ("resources/read", "resources");
    ("resources/subscribe", "resources");
    ("resources/unsubscribe", "resources");
    ("tools/call", "tools"); ("tools/list", "tools");
    ("completion/complete", "completions") ].

(** Modelled from the spec: "sending a create-message request requires
    the peer to have declared sampling support"; the suite adds roots. *)
Definition REQUEST_CAPABILITY : list (string * string) :=
  [ ("sampling/createMessage", "sampling");
    ("elicitation/create", "elicitation");
    ("roots/list", "roots") ].

(** Modelled from the spec: the notifications a responder sends and the
    local capability each needs; the suite has logging and resources. *)
Definition NOTIFICATION_CAPABILITY : list (string * string) :=
  [ ("notifications/message", "logging");
    ("notifications/resources/updated", "resources");
    ("notifications/resources/list_changed", "resources");
    ("notifications/tools/list_changed", "tools");
    ("notifications/prompts/list_changed", "prompts") ].

(** Modelled from the spec: a capability is declared when the
    capabilities are present and name it, [caps?.[capability]]; absent
    capabilities declare nothing (section 3, checks "fail closed"). *)
Definition declares (capabilities : option value) (capability : string)
  : bool :=
  match capabilities with
  | Some c => truthy (prop c capability)
  | None => false
  end.

(** Modelled from the spec: "violation raises an error synchronously with
    a message identifying the missing capability"; the suite matches the
    messages against /^Server does not support <capability>/ and
    /^Client does not support/. *)
Definition violation (side capability method : string) : string :=
  side ++ " does not support " ++ capability
       ++ " (required for " ++ method ++ ")".

(** Modelled from the spec: the three checks of [Server] (section 4.3):
    the local capability for a handler, the peer's for an outbound
    request, the local one for an outbound notification. *)
Definition assertRequestHandlerCapability (s : t) (method : string)
  : Outcome unit :=
  match required REQUEST_HANDLER_CAPABILITY method with
  | Some capability =>
      if declares (Some (_capabilities s)) capability then Returns tt
      else Throws (violation "Server" capability method)
  | None => Returns tt
  end.

Definition assertCapabilityForMethod (s : t) (method : string)
  : Outcome unit :=
  match required REQUEST_CAPABILITY method with
  | Some capability =>
      if declares (_clientCapabilities s) capability then Returns tt
      else Throws (violation "Client" capability method)
  | None => Returns tt
  end.

Definition assertNotificationCapability (s : t) (method : string)
  : Outcome unit :=
  match required NOTIFICATION_CAPABILITY method with
  | Some capability =>
      if declares (Some (_capabilities s)) capability then Returns tt
      else Throws (violation "Server" capability method)
  | None => Returns tt
  end.

(** Modelled from the spec: [setRequestHandler] of the engine. Sections
    3 and 4.3: the local capability is checked first, then the handler
    replaces any earlier one for the method. *)
Definition setRequestHandler_call (method : string)
  (handler : value -> Outcome value) : Call unit :=
  _ <- check (fun s => assertRequestHandlerCapability s method) ;;
  update (fun s =>
            with_requestHandlers s
              (<[method := user_handler handler]> (_requestHandlers s))).

Definition setRequestHandler (s : t) (method : string)
  (handler : value -> Outcome value) : Outcome t :=
  outcome (setRequestHandler_call method handler s).

(** Modelled from the spec: section 4.3, outbound gating uses the peer's
    capabilities; with [enforceStrictCapabilities] a violation raises,
    "permissive mode logs but proceeds". *)
Definition gate (method : string) : Call unit :=
  fun s =>
    match assertCapabilityForMethod s method with
    | Throws e =>
        if _enforceStrictCapabilities s then (s, Throws e)
        else (with_log s e, Returns tt)
    | Returns _ => (s, Returns tt)
    end.

(** Modelled from the spec: [request] of the engine, up to the hand-over
    to the transport. The transport must be attached; the peer's
    capability is gated; then (section 4.2) the next request id is
    allocated, the request recorded as outstanding and the message sent.
    Its timeout and its cancellation run on timers and abort signals and
    are left out. *)
Definition request_call (method : string) (params : option value)
  : Call unit :=
  attached <- read _transport ;;
  match attached with
  | None => throw "Not connected"
  | Some _ =>
      _ <- gate method ;;
      id <- read _requestMessageId ;;
      _ <- update (fun s => with_pending s (id + 1) ({[ id ]} ∪ _pending s)) ;;
      update (fun s => send s (jsonrpc_request id method params))
  end.

Definition request (s : t) (method : string) (params : option value)
  : Outcome t :=
  outcome (request_call method params s).

(** Modelled from the spec: [notification] of the engine. Section 4.3:
    the local capability is checked before anything is sent. *)
Definition notification_call (method : string) (params : option value)
  : Call unit :=
  attached <- read _transport ;;
  match attached with
  | None => throw "Not connected"
  | Some _ =>
      _ <- check (fun s => assertNotificationCapability s method) ;;
      update (fun s => send s (jsonrpc_notification method params))
  end.

Definition notification (s : t) (method : string) (params : option value)
  : Outcome t :=
  outcome (notification_call method params s).

(** Modelled from the spec: the convenience methods of [Server] that the
    suite calls, "thin callers of the generic request/notification
    primitives" (section 1). *)
Definition createMessage_call (params : value) : Call unit :=
  request_call "sampling/createMessage" (Some params).

Definition createMessage (s : t) (params : value) : Outcome t :=
  request s "sampling/createMessage" (Some params).

Definition listRoots_call : Call unit := request_call "roots/list" None.

Definition listRoots (s : t) : Outcome t := request s "roots/list" None.

Definition sendResourceUpdated_call (params : value) : Call unit :=
  notification_call "notifications/resources/updated" (Some params).

Definition sendResourceUpdated (s : t) (params : value) : Outcome t :=
  notification s "notifications/resources/updated" (Some params).

(** *** Log-level filtering *)

Fixpoint index_of (x : string) (l : list string) : option nat :=
  match l with
  | [] => None
  | y :: rest =>
      if String.eqb y x then Some O else option_map S (index_of x rest)
  end.

(** Modelled from the spec: the severity of a level is its position in
    [LoggingLevelSchema] of [types.ts], least severe first. *)
Definition LOG_LEVEL_SEVERITY (level : string) : option nat :=
  index_of level LoggingLevel_options.

(** Modelled from the spec: section 8, "after the peer sets a minimum
    severity level, only notifications at or above that severity reach its
    notification callback"; section 3, the level is kept per session
    identifier. Without a level for the session nothing is ignored. *)
Definition isMessageIgnored (s : t) (level : string)
  (session : option string) : bool :=
  match _loggingLevels s !! session with
  | Some currentLevel =>
      match LOG_LEVEL_SEVERITY level, LOG_LEVEL_SEVERITY currentLevel with
      | Some l, Some c => (l <? c)%nat
      | _, _ => false
      end
  | None => false
  end.

(** The [level] of the params of a logging message. *)
Definition level_of (params : value) : string :=
  match prop params "level" with
  | VStr level => level
  | _ => ""
  end.

(** Modelled from the spec: [sendLoggingMessage(params, sessionId)];
    "lower-severity ones are dropped with no side effect". *)
Definition sendLoggingMessage_call (params : value)
  (session : option string) : Call unit :=
  ignored <- read (fun s => isMessageIgnored s (level_of params) session) ;;
  if ignored : bool then ret tt
  else notification_call "notifications/message" (Some params).

Definition sendLoggingMessage (s : t) (params : value)
  (session : option string) : Outcome t :=
  outcome (sendLoggingMessage_call params session s).

(** *** The handshake *)

(** Modelled from the spec: section 8, "initialize with the latest
    supported version => response proposes the latest version; with
    another version present in the supported set => response echoes that
    version". For a version outside the set the specification lets the
    handshake fail, while the suite ("should handle unsupported protocol
    version") requires a result that proposes the latest version; the
    model follows the suite. *)
Definition negotiate (requestedVersion : string) : string :=
  if existsb (String.eqb requestedVersion) SUPPORTED_PROTOCOL_VERSIONS
  then requestedVersion
  else LATEST_PROTOCOL_VERSION.

(** Modelled from the spec: the initialize handler of [Server]. Section
    4.4: the peer's capabilities and identity are recorded; the result
    carries the negotiated version, the local capabilities, the server's
    identity and, as the suite expects, the instructions when there are
    some. *)
Definition _oninitialize (s : t) (request : value) : t * value :=
  let params := prop request "params" in
  let requestedVersion :=
    match prop params "protocolVersion" with VStr v => v | _ => "" end in
  (with_client s (Some (prop params "capabilities"))
                 (Some (prop params "clientInfo")),
   VObj ([ ("protocolVersion", VStr (negotiate requestedVersion));
           ("capabilities", getCapabilities s);
           ("serverInfo", Implementation_value (_serverInfo s)) ]
         ++ match _instructions s with
            | Some i => [ ("instructions", VStr i) ]
            | None => []
            end)).

(** *** Dispatch (specification, section 4.1) *)

(** Modelled from the spec: a request is looked up in the registry; an
    unknown method is answered with MethodNotFound; a payload that its
    schema refuses is an InvalidParams failure of that one message; a
    result or a thrown error is sent back under the same id. *)
Definition _onrequest (s : t) (raw : value) : t :=
  let id := prop raw "id" in
  match prop raw "method" with
  | VStr method =>
      match _requestHandlers s !! method with
      | None =>
          send s (jsonrpc_error id ErrorCode.MethodNotFound "Method not found")
      | Some initialize_handler =>
          if isInitializeRequest raw then
            let '(s', result) := _oninitialize s raw in
            send s' (jsonrpc_response id result)
          else
            send s (jsonrpc_error id ErrorCode.InvalidParams "Invalid params")
      | Some ping_handler => send s (jsonrpc_response id (VObj []))
      | Some setLevel_handler =>
          if z.parse SetLevelRequestSchema raw then
            let session :=
              match _transport s with
              | Some transport => sessionId transport
              | None => None
              end in
            let level := level_of (prop raw "params") in
            let s' :=
              if LoggingLevelSchema (VStr level)
              then with_loggingLevels s
                     (<[session := level]> (_loggingLevels s))
              else s in
            send s' (jsonrpc_response id (VObj []))
          else
            send s (jsonrpc_error id ErrorCode.InvalidParams "Invalid params")
      | Some (user_handler f) =>
          match f raw with
          | Returns result => send s (jsonrpc_response id result)
          | Throws e =>
              send s (jsonrpc_error id ErrorCode.InternalError e)
          end
      end
  | _ => s
  end.

(** Modelled from the spec: the initialized notification marks the
    connection ready; other notifications have no handler here and are
    dropped. *)
Definition _onnotification (s : t) (raw : value) : t :=
  if isInitializedNotification raw then
    match _state s with
    | Handshaking => with_transport s (_transport s) Ready
    | _ => s
    end
  else s.

(** The integer a numeric id stands for (outbound ids are integers). *)
Definition id_of (v : value) : option Z :=
  match v with
  | VNum (Dyadic m e) =>
      if 0 <=? e then Some (m * 2 ^ e)
      else if m mod 2 ^ (- e) =? 0 then Some (m / 2 ^ (- e)) else None
  | _ => None
  end.

(** Modelled from the spec: a response or error with a known id settles
    the outstanding request; with an unknown id it is dropped and logged. *)
Definition _onresponse (s : t) (raw : value) : t :=
  match id_of (prop raw "id") with
  | Some id =>
      if decide (id ∈ _pending s)
      then with_pending s (_requestMessageId s) (_pending s ∖ {[ id ]})
      else with_log s "Received a response for an unknown message ID"
  | None => with_log s "Received a response for an unknown message ID"
  end.

(** Modelled from the spec: section 4.1, the inbound message is
    classified by the four classifiers of [types.ts]; what none of them
    accepts is reported to the error callback and otherwise ignored. *)
Definition onmessage (s : t) (raw : value) : t :=
  if isJSONRPCResponse raw || isJSONRPCError raw then _onresponse s raw
  else if isJSONRPCRequest raw then _onrequest s raw
  else if isJSONRPCNotification raw then _onnotification s raw
  else with_log s "Unknown message type".

(** A server constructed and connected to a fresh transport, as the
    tests of the suite begin. *)
Definition connected (serverInfo : Implementation) (capabilities : value)
  (instructions : option string) (enforceStrictCapabilities : bool)
  (session : option string) : t :=
  exec (connect_call {| sessionId := session; sent := [] |})
    (new serverInfo capabilities instructions enforceStrictCapabilities).

(** What can happen at a server: a message arrives, or one of its
    methods is called. *)
Inductive event :=
| receive (raw : value)
| call_setRequestHandler (method : string) (handler : value -> Outcome value)
| call_request (method : string) (params : option value)
| call_notification (method : string) (params : option value)
| call_sendLoggingMessage (params : value) (session : option string)
| call_close.

Definition step (s : t) (e : event) : t :=
  match e with
  | receive raw => onmessage s raw
  | call_setRequestHandler method handler =>
      exec (setRequestHandler_call method handler) s
  | call_request method params => exec (request_call method params) s
  | call_notification method params =>
      exec (notification_call method params) s
  | call_sendLoggingMessage params session =>
      exec (sendLoggingMessage_call params session) s
  | call_close => close s
  end.

Definition run (s : t) (es : list event) : t := fold_left step es s.

(** An event that delivers an initialize request. *)
Definition delivers_initialize (e : event) : bool :=
  match e with
  | receive raw => isInitializeRequest raw
  | _ => false
  end.

(** The server as the version tests drive it: constructed, connected to
    a transport without session, handed one message. *)
Definition under_test : Tests.ServerUnderTest :=
  fun serverInfo capabilities instructions raw =>
    transmitted
      (onmessage (connected serverInfo capabilities instructions false None)
         raw).

End Server.

(** ** [server/index.test.ts]: the other tests, run on the model *)

Module Suite.

(** [expect(...).toThrow(/^prefix/)], [rejects.toThrow(/^prefix/)]. *)
Definition toThrow {A : Type} (prefix : string) (call : Outcome A) : bool :=
  match call with
  | Throws e => String.prefix prefix e
  | Returns _ => false
  end.

(** [expect(...).not.toThrow()], [resolves.not.toThrow()]. *)
Definition not_toThrow {A : Type} (call : Outcome A) : bool :=
  match call with
  | Returns _ => true
  | Throws _ => false
  end.

Definition clientInfo : Implementation :=
  {| name := "test client"; version := "1.0" |}.

(** The engine of the client frames its calls; its request ids count
    from zero. *)
Definition frame (id : Z) (k : Client.Call) : value :=
  match k with
  | Client.request method params => jsonrpc_request id method params
  | Client.notification method => jsonrpc_notification method None
  end.

(** The last call of the client, framed and delivered to the server. *)
Definition deliver (id : Z) (client : Client.t) (server : Server.t)
  : Server.t :=
  match List.last (map Some (Client.calls client)) None with
  | Some k => Server.onmessage server (frame id k)
  | None => server
  end.

(** [Promise.all([client.connect(clientTransport),
    server.connect(serverTransport)])] over a linked pair: the initialize
    request reaches the server, its result settles the request of the
    client, and the initialized notification reaches the server. The
    result of the server has the keys of the schema of [connect] in the
    order of the schema, so what the request resolves with is that
    result. *)
Definition connect_pair (client : Client.t) (server : Server.t)
  : Client.t * Server.t :=
  let client1 := Client.connect client in
  let server1 := deliver 0 client1 server in
  let answer := List.last (Server.transmitted server1) VUndefined in
  let client2 := Client.connect_resume client1 (Returns (prop answer "result")) in
  (client2, deliver 1 client2 server1).

Definition should_respect_client_capabilities : bool :=
  let server := Server.connected Tests.serverInfo Tests.capabilities None true
                  None in
  let client := Client.new clientInfo (Some (VObj [ ("sampling", VObj []) ])) in
  let '(client, server) := connect_pair client server in
  match Server.getClientCapabilities server with
  | Some c => Tests.toEqual c (Tests.object_of [ ("sampling", Tests.object_of []) ])
  | None => false
  end
  && not_toThrow
       (Server.createMessage server
          (VObj [ ("messages", VArr []); ("maxTokens", VNum (num 10)) ]))
  && toThrow "Client does not support" (Server.listRoots server).

Definition should_respect_server_notification_capabilities : bool :=
  let server := Server.connected Tests.serverInfo
                  (VObj [ ("logging", VObj []) ]) None true None in
  not_toThrow
    (Server.sendLoggingMessage server
       (VObj [ ("level", VStr "info"); ("data", VStr "Test log message") ])
       None)
  && toThrow "Server does not support"
       (Server.sendResourceUpdated server
          (VObj [ ("uri", VStr "test://resource") ])).

Definition should_only_allow_setRequestHandler_for_declared_capabilities
  : bool :=
  let server := Server.new Tests.serverInfo
                  (VObj [ ("prompts", VObj []); ("resources", VObj []) ])
                  None false in
  let listPrompts :=
    Server.setRequestHandler server "prompts/list"
      (fun _ => Returns (VObj [ ("prompts", VArr []) ])) in
  let server :=
    Server.exec
      (Server.setRequestHandler_call "prompts/list"
         (fun _ => Returns (VObj [ ("prompts", VArr []) ]))) server in
  let listResources :=
    Server.setRequestHandler server "resources/list"
      (fun _ => Returns (VObj [ ("resources", VArr []) ])) in
  let server :=
    Server.exec
      (Server.setRequestHandler_call "resources/list"
         (fun _ => Returns (VObj [ ("resources", VArr []) ]))) server in
  not_toThrow listPrompts
  && not_toThrow listResources
  && toThrow "Server does not support tools"
       (Server.setRequestHandler server "tools/list"
          (fun _ => Returns (VObj [ ("tools", VArr []) ])))
  && toThrow "Server does not support logging"
       (Server.setRequestHandler server "logging/setLevel"
          (fun _ => Returns (VObj []))).

Definition warningParams : value :=
  VObj [ ("level", VStr "warning"); ("logger", VStr "test server");
         ("data", VStr "Warning message") ].

Definition debugParams : value :=
  VObj [ ("level", VStr "debug"); ("logger", VStr "test server");
         ("data", VStr "Debug message") ].

(** The two log-level tests: [session] is the session identifier given to
    both transports, if any, and to [sendLoggingMessage]. After the client
    has set the level to warning, [clientTransport.onmessage] is not
    called for the debug message and is called, with the expected
    notification, for the warning. *)
Definition should_respect_log_level (session : option string) : bool :=
  let server := Server.connected Tests.serverInfo Tests.capabilities None true
                  session in
  let '(client, server) := connect_pair (Client.new clientInfo None) server in
  let client := Client.setLoggingLevel client "warning" in
  let server := deliver 1 client server in
  let before := Server.transmitted server in
  let server := Server.exec
                  (Server.sendLoggingMessage_call debugParams session)
                  server in
  let not_called := (length (Server.transmitted server) =? length before)%nat in
  let server := Server.exec
                  (Server.sendLoggingMessage_call warningParams session)
                  server in
  not_called
  && match skipn (length before) (Server.transmitted server) with
     | [ message ] =>
         Tests.toEqual message
           (Tests.object_of
              [ ("jsonrpc", Tests.exactly "2.0");
                ("method", Tests.exactly "notifications/message");
                ("params", Tests.object_of
                   [ ("level", Tests.exactly "warning");
                     ("logger", Tests.exactly "test server");
                     ("data", Tests.exactly "Warning message") ]) ])
     | _ => false
     end.

Definition should_respect_log_level_for_transport_without_sessionId : bool :=
  should_respect_log_level None.

Definition should_respect_log_level_for_transport_with_sessionId : bool :=
  should_respect_log_level (Some "test-session-id").

End Suite.

(** * Properties *)

(** ** Objects and schemas *)

Lemma get_absent (o : props) (key : string) :
  has o key = false -> get o key = VUndefined.
Proof.
  unfold has. induction o as [| [k v] rest IH]; simpl; [ reflexivity | ].
  rewrite (String.eqb_sym key k).
  destruct (String.eqb k key); simpl; [ discriminate | exact IH ].
Qed.

(** A schema that refuses [undefined] finds its key in the object. *)
Lemma accepted_has (s : z.Schema) (o : props) (key : string) :
  s VUndefined = false -> s (get o key) = true -> has o key = true.
Proof.
  intros Hundef Hacc. destruct (has o key) eqn:Hhas; [ reflexivity | ].
  rewrite (get_absent _ _ Hhas) in Hacc. congruence.
Qed.

Lemma parse_object (o : z.ZodObject) (v : value) :
  z.parse o v = true -> exists input, v = VObj input.
Proof. destruct v; simpl; try discriminate. eauto. Qed.

(** Every key of the shape validates the property of that name. *)
Lemma parse_field (o : z.ZodObject) (input : props) (key : string)
  (s : z.Schema) :
  z.parse o (VObj input) = true -> In (key, s) (z.shape o) ->
  s (get input key) = true.
Proof.
  simpl. intros H Hin. apply andb_prop in H as [H _].
  rewrite forallb_forall in H. exact (H _ Hin).
Qed.

(** A strict schema accepts no key outside its shape. *)
Lemma strict_rejects (o : z.ZodObject) (input : props) (key : string) :
  z.parse (z.strict o) (VObj input) = true ->
  existsb (String.eqb key) (map fst (z.shape o)) = false ->
  has input key = false.
Proof.
  simpl. intros H Hout. apply andb_prop in H as [_ H].
  unfold z.extraKeys in H. simpl in H.
  destruct (has input key) eqn:Hhas; [ exfalso | reflexivity ].
  unfold has in Hhas. apply existsb_exists in Hhas as (k & Hk & Heq).
  apply String.eqb_eq in Heq. subst k.
  assert (Hf : In key (List.filter
             (fun k => negb (existsb (String.eqb k) (map fst (z.shape o))))
             (map fst input))).
  { apply filter_In. split; [ exact Hk | now rewrite Hout ]. }
  destruct (List.filter _ _); [ destruct Hf | discriminate ].
Qed.

(** ** The classifiers of [types.ts] *)

(** What each classifier demands of the keys [id], [method], [result]
    and [error] of the object it accepts. *)
Lemma request_keys (input : props) :
  isJSONRPCRequest (VObj input) = true ->
  has input "id" = true /\ has input "method" = true
  /\ has input "result" = false /\ has input "error" = false.
Proof.
  intros H. unfold isJSONRPCRequest, JSONRPCRequestSchema in H.
  repeat split.
  - eapply accepted_has; [ | eapply (parse_field _ _ "id" _ H); simpl; eauto ].
    reflexivity.
  - eapply accepted_has;
      [ | eapply (parse_field _ _ "method" _ H); simpl; eauto ].
    reflexivity.
  - apply (strict_rejects _ _ _ H). reflexivity.
  - apply (strict_rejects _ _ _ H). reflexivity.
Qed.

Lemma notification_keys (input : props) :
  isJSONRPCNotification (VObj input) = true ->
  has input "id" = false /\ has input "method" = true
  /\ has input "result" = false /\ has input "error" = false.
Proof.
  intros H. unfold isJSONRPCNotification, JSONRPCNotificationSchema in H.
  repeat split.
  - apply (strict_rejects _ _ _ H). reflexivity.
  - eapply accepted_has;
      [ | eapply (parse_field _ _ "method" _ H); simpl; eauto ].
    reflexivity.
  - apply (strict_rejects _ _ _ H). reflexivity.
  - apply (strict_rejects _ _ _ H). reflexivity.
Qed.

Lemma response_keys (input : props) :
  isJSONRPCResponse (VObj input) = true ->
  has input "id" = true /\ has input "method" = false
  /\ has input "result" = true /\ has input "error" = false.
Proof.
  intros H. unfold isJSONRPCResponse, JSONRPCResponseSchema in H.
  repeat split.
  - eapply accepted_has; [ | eapply (parse_field _ _ "id" _ H); simpl; eauto ].
    reflexivity.
  - apply (strict_rejects _ _ _ H). reflexivity.
  - eapply accepted_has;
      [ | eapply (parse_field _ _ "result" _ H); simpl; eauto ].
    reflexivity.
  - apply (strict_rejects _ _ _ H). reflexivity.
Qed.

Lemma error_keys (input : props) :
  isJSONRPCError (VObj input) = true ->
  has input "id" = true /\ has input "method" = false
  /\ has input "result" = false /\ has input "error" = true.
Proof.
  intros H. unfold isJSONRPCError, JSONRPCErrorSchema in H.
  repeat split.
  - eapply accepted_has; [ | eapply (parse_field _ _ "id" _ H); simpl; eauto ].
    reflexivity.
  - apply (strict_rejects _ _ _ H). reflexivity.
  - apply (strict_rejects _ _ _ H). reflexivity.
  - eapply accepted_has;
      [ | eapply (parse_field _ _ "error" _ H); simpl; eauto ].
    reflexivity.
Qed.

(** Two different shapes never accept the same value. *)
Lemma classifier_exclusive (a b : Shape) (v : value) :
  classifier a v = true -> classifier b v = true -> a = b.
Proof.
  intros Ha Hb.
  assert (Hobj : exists input, v = VObj input)
    by (destruct a; exact (parse_object _ _ Ha)).
  destruct Hobj as [input ->].
  destruct a, b; cbn [classifier] in Ha, Hb; try reflexivity; exfalso;
    repeat match goal with
           | H : isJSONRPCRequest _ = true |- _ =>
               apply request_keys in H; destruct H as (? & ? & ? & ?)
           | H : isJSONRPCNotification _ = true |- _ =>
               apply notification_keys in H; destruct H as (? & ? & ? & ?)
           | H : isJSONRPCResponse _ = true |- _ =>
               apply response_keys in H; destruct H as (? & ? & ? & ?)
           | H : isJSONRPCError _ = true |- _ =>
               apply error_keys in H; destruct H as (? & ? & ? & ?)
           end; congruence.
Qed.

(** C7. The four message-shape classifiers are mutually exclusive: for
    every raw value at most one of [isJSONRPCRequest],
    [isJSONRPCNotification], [isJSONRPCResponse] and [isJSONRPCError]
    returns true. In particular a value that carries an [id] key is never
    a notification, and a value that carries both a [result] and an
    [error] key is neither a response nor an error response. *)
Theorem classifiers_mutually_exclusive (v : value) :
  (length (shapes_of v) <= 1)%nat
  /\ (has_key v "id" = true -> isJSONRPCNotification v = false)
  /\ (has_key v "result" = true -> has_key v "error" = true ->
      isJSONRPCResponse v = false /\ isJSONRPCError v = false).
Proof.
  split; [ | split ].
  - unfold shapes_of. simpl.
    destruct (isJSONRPCRequest v) eqn:Hq, (isJSONRPCNotification v) eqn:Hn,
      (isJSONRPCResponse v) eqn:Hr, (isJSONRPCError v) eqn:He;
      simpl; try lia; exfalso.
    all: try (pose proof (classifier_exclusive Request Notification v Hq Hn);
              discriminate).
    all: try (pose proof (classifier_exclusive Request Response v Hq Hr);
              discriminate).
    all: try (pose proof (classifier_exclusive Request ErrorResponse v Hq He);
              discriminate).
    all: try (pose proof (classifier_exclusive Notification Response v Hn Hr);
              discriminate).
    all: try (pose proof
                (classifier_exclusive Notification ErrorResponse v Hn He);
              discriminate).
    all: try (pose proof (classifier_exclusive Response ErrorResponse v Hr He);
              discriminate).
  - intros Hid. destruct (isJSONRPCNotification v) eqn:Hn; [ | reflexivity ].
    destruct (parse_object _ _ Hn) as [input ->].
    apply notification_keys in Hn. simpl in Hid. intuition congruence.
  - intros Hres Herr. split.
    + destruct (isJSONRPCResponse v) eqn:Hr; [ | reflexivity ].
      destruct (parse_object _ _ Hr) as [input ->].
      apply response_keys in Hr. simpl in Herr. intuition congruence.
    + destruct (isJSONRPCError v) eqn:He; [ | reflexivity ].
      destruct (parse_object _ _ He) as [input ->].
      apply error_keys in He. simpl in Hres. intuition congruence.
Qed.

(** The request of the suite is a request and nothing else; with a
    [result] and an [error] it has no shape at all. *)
Lemma classifiers_mutually_exclusive_witness :
  shapes_of (Tests.initialize "invalid-version") = [ Request ]
  /\ (length (shapes_of (Tests.initialize "invalid-version")) <= 1)%nat
  /\ isJSONRPCNotification (Tests.initialize "invalid-version") = false.
Proof.
  split; [ reflexivity | ].
  split.
  - exact (proj1 (classifiers_mutually_exclusive
                    (Tests.initialize "invalid-version"))).
  - apply (proj1 (proj2 (classifiers_mutually_exclusive
                           (Tests.initialize "invalid-version")))).
    reflexivity.
Defined.

(** C10. A numeric request identifier is accepted only when it is an
    integer: a message whose [id] is a number that is not an integer is
    refused by [isJSONRPCRequest], [isJSONRPCResponse] and
    [isJSONRPCError], and so has no shape. *)
Theorem non_integer_id_unclassifiable (v : value) (n : number) :
  prop v "id" = VNum n -> Number_isInteger n = false ->
  isJSONRPCRequest v = false /\ isJSONRPCResponse v = false
  /\ isJSONRPCError v = false /\ shapes_of v = [].
Proof.
  intros Hid Hint.
  assert (Hrefused : RequestIdSchema (VNum n) = false).
  { unfold RequestIdSchema, z.union, z.int. simpl. rewrite Hint.
    now rewrite andb_false_r. }
  assert (Hq : isJSONRPCRequest v = false).
  { destruct (isJSONRPCRequest v) eqn:H; [ exfalso | reflexivity ].
    destruct (parse_object _ _ H) as [input ->]. simpl in Hid.
    pose proof (parse_field _ _ "id" RequestIdSchema H) as Hf.
    rewrite Hid in Hf. rewrite Hf in Hrefused; [ discriminate | ].
    simpl. eauto. }
  assert (Hr : isJSONRPCResponse v = false).
  { destruct (isJSONRPCResponse v) eqn:H; [ exfalso | reflexivity ].
    destruct (parse_object _ _ H) as [input ->]. simpl in Hid.
    pose proof (parse_field _ _ "id" RequestIdSchema H) as Hf.
    rewrite Hid in Hf. rewrite Hf in Hrefused; [ discriminate | ].
    simpl. eauto. }
  assert (He : isJSONRPCError v = false).
  { destruct (isJSONRPCError v) eqn:H; [ exfalso | reflexivity ].
    destruct (parse_object _ _ H) as [input ->]. simpl in Hid.
    pose proof (parse_field _ _ "id" RequestIdSchema H) as Hf.
    rewrite Hid in Hf. rewrite Hf in Hrefused; [ discriminate | ].
    simpl. eauto. }
  repeat split; try assumption.
  unfold shapes_of. simpl. rewrite Hq, Hr, He.
  destruct (isJSONRPCNotification v) eqn:Hn; [ exfalso | reflexivity ].
  destruct (parse_object _ _ Hn) as [input ->].
  apply notification_keys in Hn. destruct Hn as [Hno _].
  simpl in Hid. rewrite (get_absent _ _ Hno) in Hid. discriminate.
Qed.

(** The id 1.5, that is [3 * 2^-1]. *)
Lemma non_integer_id_unclassifiable_witness :
  let v := VObj [ ("jsonrpc", VStr "2.0"); ("id", VNum (Dyadic 3 (-1)));
                  ("method", VStr "ping") ] in
  isJSONRPCRequest v = false /\ isJSONRPCResponse v = false
  /\ isJSONRPCError v = false /\ shapes_of v = [].
Proof.
  apply (non_integer_id_unclassifiable _ (Dyadic 3 (-1))); reflexivity.
Defined.

(** C8. The reserved error codes are exactly ParseError = -32700,
    InvalidRequest = -32600, MethodNotFound = -32601, InvalidParams =
    -32602, InternalError = -32603, ConnectionClosed = -32000 and
    RequestTimeout = -32001: the enum has these seven members and no
    other. *)
Theorem reserved_error_codes :
  map (fun m => (fst m, ErrorCode.code (snd m))) ErrorCode.members
  = [ ("ConnectionClosed", -32000); ("RequestTimeout", -32001);
      ("ParseError", -32700); ("InvalidRequest", -32600);
      ("MethodNotFound", -32601); ("InvalidParams", -32602);
      ("InternalError", -32603) ]
  /\ forall c : ErrorCode.t, In c (map snd ErrorCode.members).
Proof.
  split; [ reflexivity | ].
  intros c. destruct c; simpl; tauto.
Qed.

(** ** The initiator of [__mocks__/client.ts] *)

(** Only a result delivered to [connect] changes the recorded
    capabilities of the server. *)
Lemma step_keeps_serverCapabilities (c : Client.t) (e : Client.event) :
  Client.delivers_result e = false ->
  Client.getServerCapabilities (Client.step c e)
  = Client.getServerCapabilities c.
Proof.
  destruct e as [ | [r | err] | | | | | | | ]; simpl; try reflexivity;
    try discriminate.
  intros _. unfold Client.connect_resume, Client.resolves.
  now destruct (Client.connecting c).
Qed.

(** A step either keeps the recorded capabilities or records those of
    the result it delivers. *)
Lemma step_serverCapabilities (c : Client.t) (e : Client.event) :
  Client.getServerCapabilities (Client.step c e)
  = Client.getServerCapabilities c
  \/ exists result,
       e = Client.initialize_settled (Returns result)
       /\ z.parse Client.InitializeResultSchema result = true
       /\ Client.getServerCapabilities (Client.step c e)
          = Some (prop result "capabilities").
Proof.
  destruct (Client.delivers_result e) eqn:He.
  - destruct e as [ | [r | err] | | | | | | | ]; try discriminate.
    simpl. unfold Client.connect_resume, Client.resolves.
    destruct (Client.connecting c); [ | now left ].
    destruct (z.parse Client.InitializeResultSchema r) eqn:Hr; [ | now left ].
    right. exists r. split; [ reflexivity | ]. split; [ exact Hr | reflexivity ].
  - left. now apply step_keeps_serverCapabilities.
Qed.

Lemma run_keeps_serverCapabilities (es : list Client.event) (c : Client.t) :
  forallb (fun e => negb (Client.delivers_result e)) es = true ->
  Client.getServerCapabilities (Client.run c es)
  = Client.getServerCapabilities c.
Proof.
  revert c. induction es as [| e es IH]; intros c H; [ reflexivity | ].
  simpl in H. apply andb_prop in H as [He Hes].
  unfold Client.run. simpl. fold (Client.run (Client.step c e) es).
  rewrite (IH _ Hes). apply step_keeps_serverCapabilities.
  now destruct (Client.delivers_result e).
Qed.

Lemma run_serverCapabilities (es : list Client.event) (c : Client.t)
  (capabilities : value) :
  Client.getServerCapabilities (Client.run c es) = Some capabilities ->
  Client.getServerCapabilities c = Some capabilities
  \/ exists result,
       In (Client.initialize_settled (Returns result)) es
       /\ z.parse Client.InitializeResultSchema result = true
       /\ capabilities = prop result "capabilities".
Proof.
  revert c. induction es as [| e es IH]; intros c H; [ now left | ].
  unfold Client.run in H. simpl in H. fold (Client.run (Client.step c e) es) in H.
  destruct (IH _ H) as [Hstep | (result & Hin & Hr & Heq)].
  - destruct (step_serverCapabilities c e)
      as [Hkeep | (result & -> & Hr & Hrec)].
    + left. congruence.
    + right. exists result. split; [ now left | ].
      split; [ exact Hr | congruence ].
  - right. exists result. split; [ now right | ]. split; assumption.
Qed.

(** ** The protocol-version tests of the suite *)

(** What [toEqual] with an object literal says of one expected key. *)
Lemma toEqual_field (o : props) (fields : list (string * Tests.Expected))
  (key : string) (e : Tests.Expected) :
  Tests.toEqual (VObj o) (Tests.object_of fields) = true ->
  In (key, e) fields -> Tests.toEqual (get o key) e = true.
Proof.
  simpl. intros H Hin. apply andb_prop in H as [H _].
  induction fields as [| [k e'] fs IH]; [ destruct Hin | ].
  apply andb_prop in H as [Hhead Htail].
  destruct Hin as [Heq | Hin]; [ now inversion Heq; subst | now apply IH ].
Qed.

Lemma toEqual_exactly (v : value) (s : string) :
  Tests.toEqual v (Tests.exactly s) = true -> v = VStr s.
Proof.
  destruct v; simpl; try discriminate.
  intros H. apply String.eqb_eq in H. now subst.
Qed.

(** A message that resolves [sendPromise] answers request 1 with a result
    that proposes the expected version. *)
Lemma send_resolves (version : string) (instructions : option string)
  (message : value) :
  Tests.send (Tests.expected_result version instructions) message = true ->
  Tests.is_result_for 1 message = true
  /\ prop (prop message "result") "protocolVersion" = VStr version.
Proof.
  unfold Tests.send, Tests.is_result_for. intros H.
  apply andb_prop in H as [H Heq]. split; [ exact H | ].
  destruct (prop message "result") as [ | | | | | | o ] eqn:Hres;
    try discriminate.
  apply toEqual_exactly.
  apply (toEqual_field o _ "protocolVersion" _ Heq). simpl. now left.
Qed.

(** ** The responder, as modelled *)

Lemma literal_eq (lit : string) (v : value) :
  z.literal lit v = true -> v = VStr lit.
Proof.
  destruct v; simpl; try discriminate.
  intros H. apply String.eqb_eq in H. now subst.
Qed.

Lemma initialize_method (raw : value) :
  isInitializeRequest raw = true -> prop raw "method" = VStr "initialize".
Proof.
  intros H. destruct (parse_object _ _ H) as [input ->].
  apply literal_eq. apply (parse_field _ _ "method" _ H). simpl. now left.
Qed.

Lemma setLevel_method (raw : value) :
  z.parse SetLevelRequestSchema raw = true ->
  prop raw "method" = VStr "logging/setLevel".
Proof.
  intros H. destruct (parse_object _ _ H) as [input ->].
  apply literal_eq. apply (parse_field _ _ "method" _ H). simpl. now left.
Qed.

(** A request is dispatched as a request. *)
Lemma onmessage_request (s : Server.t) (raw : value) :
  isJSONRPCRequest raw = true ->
  Server.onmessage s raw = Server._onrequest s raw.
Proof.
  intros Hq. unfold Server.onmessage.
  destruct (isJSONRPCResponse raw) eqn:Hr.
  { pose proof (classifier_exclusive Request Response raw Hq Hr).
    discriminate. }
  destruct (isJSONRPCError raw) eqn:He.
  { pose proof (classifier_exclusive Request ErrorResponse raw Hq He).
    discriminate. }
  simpl. now rewrite Hq.
Qed.

Lemma transmitted_send (s : Server.t) (transport : Server.Transport)
  (message : value) :
  Server._transport s = Some transport ->
  Server.transmitted (Server.send s message)
  = (Server.sent transport ++ [ message ])%list.
Proof.
  intros H. unfold Server.send, Server.transmitted. rewrite H. reflexivity.
Qed.

Lemma negotiate_supported (requested : string) :
  In requested SUPPORTED_PROTOCOL_VERSIONS ->
  Server.negotiate requested = requested.
Proof.
  intros Hin. unfold Server.negotiate.
  assert (H : existsb (String.eqb requested) SUPPORTED_PROTOCOL_VERSIONS
              = true).
  { apply existsb_exists. exists requested.
    split; [ exact Hin | apply String.eqb_refl ]. }
  now rewrite H.
Qed.

Lemma negotiate_unsupported (requested : string) :
  ~ In requested SUPPORTED_PROTOCOL_VERSIONS ->
  Server.negotiate requested = LATEST_PROTOCOL_VERSION.
Proof.
  intros Hout. unfold Server.negotiate.
  destruct (existsb (String.eqb requested) SUPPORTED_PROTOCOL_VERSIONS)
    eqn:H; [ exfalso | reflexivity ].
  apply existsb_exists in H as (v & Hin & Heq).
  apply String.eqb_eq in Heq. now subst.
Qed.

(** The answer of the built-in handler to a well-formed initialize
    request: one response under the id of the request. *)
Lemma onmessage_initialize (s : Server.t) (transport : Server.Transport)
  (raw : value) (requested : string) :
  Server._transport s = Some transport ->
  Server._requestHandlers s !! "initialize" = Some Server.initialize_handler ->
  isJSONRPCRequest raw = true ->
  isInitializeRequest raw = true ->
  prop (prop raw "params") "protocolVersion" = VStr requested ->
  Server.transmitted (Server.onmessage s raw)
  = (Server.sent transport
     ++ [ jsonrpc_response (prop raw "id")
            (snd (Server._oninitialize s raw)) ])%list
  /\ prop (snd (Server._oninitialize s raw)) "protocolVersion"
     = VStr (Server.negotiate requested).
Proof.
  intros Ht Hh Hq Hi Hv. split.
  - rewrite (onmessage_request _ _ Hq). unfold Server._onrequest.
    rewrite (initialize_method _ Hi), Hh, Hi.
    destruct (Server._oninitialize s raw) as [s' result] eqn:Hinit.
    apply transmitted_send.
    unfold Server._oninitialize in Hinit. inversion Hinit; subst s'.
    exact Ht.
  - unfold Server._oninitialize. rewrite Hv. reflexivity.
Qed.

(** The model passes the three protocol-version tests of the suite. *)
Lemma under_test_passes_version_tests :
  Tests.should_accept_latest_protocol_version Server.under_test = true
  /\ Tests.should_accept_supported_older_protocol_version Server.under_test
     = true
  /\ Tests.should_handle_unsupported_protocol_version Server.under_test
     = true.
Proof. repeat split; vm_compute; reflexivity. Qed.

(** C2. For every initialize request that carries the latest supported
    protocol version the initialize result of the server proposes that
    latest version, and for every initialize request that carries another
    version of the supported set the result echoes exactly the requested
    version. The result is the one response sent under the id of the
    request. *)
Theorem initialize_result_version (s : Server.t)
  (transport : Server.Transport) (raw : value) (requested : string) :
  Server._transport s = Some transport ->
  Server._requestHandlers s !! "initialize" = Some Server.initialize_handler ->
  isJSONRPCRequest raw = true ->
  isInitializeRequest raw = true ->
  prop (prop raw "params") "protocolVersion" = VStr requested ->
  exists result,
    Server.transmitted (Server.onmessage s raw)
    = (Server.sent transport
       ++ [ jsonrpc_response (prop raw "id") result ])%list
    /\ isJSONRPCResponse (jsonrpc_response (prop raw "id") result) = true
    /\ (requested = LATEST_PROTOCOL_VERSION ->
        prop result "protocolVersion" = VStr LATEST_PROTOCOL_VERSION)
    /\ (In requested SUPPORTED_PROTOCOL_VERSIONS ->
        prop result "protocolVersion" = VStr requested).
Proof.
  intros Ht Hh Hq Hi Hv.
  destruct (onmessage_initialize s transport raw requested Ht Hh Hq Hi Hv)
    as [Hsent Hversion].
  exists (snd (Server._oninitialize s raw)).
  split; [ exact Hsent | ]. split.
  - destruct (parse_object _ _ Hq) as [input ->].
    pose proof (parse_field _ _ "id" RequestIdSchema Hq) as Hid.
    unfold isJSONRPCResponse, jsonrpc_response. simpl. simpl in Hid.
    rewrite Hid by (right; left; reflexivity).
    destruct (Server._instructions s); reflexivity.
  - split.
    + intros ->. rewrite Hversion, negotiate_supported;
        [ reflexivity | now left ].
    + intros Hin. rewrite Hversion, negotiate_supported;
        [ reflexivity | exact Hin ].
Qed.

(** A server of the suite, connected, that is sent the initialize request
    with the older supported version. *)
Lemma initialize_result_version_witness :
  let s := Server.connected Tests.serverInfo Tests.capabilities None false
             None in
  exists result,
    Server.transmitted (Server.onmessage s (Tests.initialize Tests.OLD_VERSION))
    = ([] ++ [ jsonrpc_response (VNum (num 1)) result ])%list
    /\ isJSONRPCResponse (jsonrpc_response (VNum (num 1)) result) = true
    /\ (Tests.OLD_VERSION = LATEST_PROTOCOL_VERSION ->
        prop result "protocolVersion" = VStr LATEST_PROTOCOL_VERSION)
    /\ (In Tests.OLD_VERSION SUPPORTED_PROTOCOL_VERSIONS ->
        prop result "protocolVersion" = VStr Tests.OLD_VERSION).
Proof.
  intros s.
  apply (initialize_result_version s {| Server.sessionId := None;
                                        Server.sent := [] |}
           (Tests.initialize Tests.OLD_VERSION) Tests.OLD_VERSION);
    reflexivity.
Defined.

(** Handing a message to the transport leaves the state of the
    connection and the record of the peer as they were. *)
Lemma send_keeps (s : Server.t) (message : value) :
  Server._state (Server.send s message) = Server._state s
  /\ Server._clientCapabilities (Server.send s message)
     = Server._clientCapabilities s
  /\ Server._log (Server.send s message) = Server._log s
  /\ Server._loggingLevels (Server.send s message) = Server._loggingLevels s.
Proof.
  unfold Server.send. destruct (Server._transport s); repeat split.
Qed.

(** The initialized notification makes a connection that is in its
    handshake ready. *)
Lemma onmessage_initialized (s : Server.t) :
  Server._state s = Server.Handshaking ->
  Server._state
    (Server.onmessage s (jsonrpc_notification "notifications/initialized" None))
  = Server.Ready.
Proof.
  intros Hs. unfold Server.onmessage.
  assert (H1 : isJSONRPCResponse
                 (jsonrpc_notification "notifications/initialized" None)
               = false) by reflexivity.
  assert (H2 : isJSONRPCError
                 (jsonrpc_notification "notifications/initialized" None)
               = false) by reflexivity.
  assert (H3 : isJSONRPCRequest
                 (jsonrpc_notification "notifications/initialized" None)
               = false) by reflexivity.
  assert (H4 : isJSONRPCNotification
                 (jsonrpc_notification "notifications/initialized" None)
               = true) by reflexivity.
  assert (H5 : isInitializedNotification
                 (jsonrpc_notification "notifications/initialized" None)
               = true) by reflexivity.
  rewrite H1, H2, H3, H4. unfold Server._onnotification.
  rewrite H5, Hs. reflexivity.
Qed.

(** A response under an id that the id schema accepts, with the result of
    the initialize handler, is a response for [isJSONRPCResponse]. *)
Lemma initialize_response_classified (s : Server.t) (raw : value) :
  isJSONRPCRequest raw = true ->
  isJSONRPCResponse
    (jsonrpc_response (prop raw "id") (snd (Server._oninitialize s raw)))
  = true.
Proof.
  intros Hq. destruct (parse_object _ _ Hq) as [input ->].
  pose proof (parse_field _ _ "id" RequestIdSchema Hq) as Hid.
  unfold isJSONRPCResponse, jsonrpc_response. simpl. simpl in Hid.
  rewrite Hid by (right; left; reflexivity).
  destruct (Server._instructions s); reflexivity.
Qed.




(** *** Capability gating *)

Lemma prefix_append (a b : string) : String.prefix a (a ++ b) = true.
Proof.
  induction a as [| c a IH]; simpl; [ now destruct b | ].
  destruct (Ascii.ascii_dec c c) as [_ | Hne]; [ exact IH | now destruct Hne ].
Qed.

Lemma prefix_cons_append (a b c : string) :
  String.prefix b c = true -> String.prefix (a ++ b) (a ++ c) = true.
Proof.
  intros H. induction a as [| x a IH]; simpl; [ exact H | ].
  destruct (Ascii.ascii_dec x x) as [_ | Hne]; [ exact IH | now destruct Hne ].
Qed.

(** The message of a violation begins by naming the side and the
    capability it lacks, as the suite matches it. *)
Lemma violation_names_capability (side capability method : string) :
  String.prefix (side ++ " does not support " ++ capability)
    (Server.violation side capability method) = true.
Proof.
  unfold Server.violation.
  apply prefix_cons_append.
  apply (prefix_cons_append " does not support ").
  apply prefix_append.
Qed.




(** The model passes the remaining tests of the suite that do not wait
    on a timer or on a cancellation. *)
Lemma model_passes_suite :
  Suite.should_respect_client_capabilities = true
  /\ Suite.should_respect_server_notification_capabilities = true
  /\ Suite.should_only_allow_setRequestHandler_for_declared_capabilities = true
  /\ Suite.should_respect_log_level_for_transport_without_sessionId = true
  /\ Suite.should_respect_log_level_for_transport_with_sessionId = true.
Proof. repeat split; vm_compute; reflexivity. Qed.

(** *** Log-level filtering *)

Lemma severity_defined (level : string) :
  In level LoggingLevel_options -> is_Some (Server.LOG_LEVEL_SEVERITY level).
Proof.
  intros H. simpl in H.
  repeat (destruct H as [<- | H]; [ eexists; reflexivity | ]).
  destruct H.
Qed.

Lemma enum_In (options : list string) (s : string) :
  z.enum options (VStr s) = true -> In s options.
Proof.
  simpl. intros H. apply existsb_exists in H as (o & Hin & Heq).
  apply String.eqb_eq in Heq. now subst.
Qed.

(** The level named by a well-formed logging/setLevel request is one of
    the eight levels. *)
Lemma setLevel_level (raw : value) (level : string) :
  z.parse SetLevelRequestSchema raw = true ->
  prop (prop raw "params") "level" = VStr level ->
  In level LoggingLevel_options.
Proof.
  intros H Hlevel. destruct (parse_object _ _ H) as [input ->].
  pose proof (parse_field _ _ "params" _ H (or_intror (or_introl eq_refl)))
    as Hparams.
  simpl in Hlevel.
  destruct (get input "params") as [ | | | | | | params ] eqn:Hp;
    try discriminate.
  simpl in Hlevel.
  apply enum_In.
  rewrite <- Hlevel.
  apply (parse_field _ _ "level" _ Hparams). simpl. right. now left.
Qed.

(** Handling logging/setLevel records the level for the session of the
    transport, and for that session only. *)
Lemma onmessage_setLevel (s : Server.t) (transport : Server.Transport)
  (raw : value) (minimum : string) :
  Server._transport s = Some transport ->
  Server._requestHandlers s !! "logging/setLevel"
  = Some Server.setLevel_handler ->
  isJSONRPCRequest raw = true ->
  z.parse SetLevelRequestSchema raw = true ->
  prop (prop raw "params") "level" = VStr minimum ->
  Server._loggingLevels (Server.onmessage s raw)
  = <[Server.sessionId transport := minimum]> (Server._loggingLevels s).
Proof.
  intros Ht Hh Hq Hs Hlevel.
  pose proof (setLevel_level _ _ Hs Hlevel) as Hin.
  rewrite (onmessage_request _ _ Hq). unfold Server._onrequest.
  rewrite (setLevel_method _ Hs), Hh, Hs, Ht.
  unfold Server.level_of. rewrite Hlevel.
  assert (Hok : LoggingLevelSchema (VStr minimum) = true).
  { unfold LoggingLevelSchema, z.enum. apply existsb_exists.
    exists minimum. split; [ exact Hin | apply String.eqb_refl ]. }
  rewrite Hok. unfold Server.send. simpl. rewrite Ht. reflexivity.
Qed.



(** *** Peer capabilities *)

(** A step of the responder either keeps the recorded capabilities of
    the client or records those of the initialize request it receives. *)
Lemma step_clientCapabilities (s : Server.t) (e : Server.event) :
  Server.getClientCapabilities (Server.step s e)
  = Server.getClientCapabilities s
  \/ exists raw,
       e = Server.receive raw
       /\ isInitializeRequest raw = true
       /\ Server.getClientCapabilities (Server.step s e)
          = Some (prop (prop raw "params") "capabilities").
Proof.
  unfold Server.getClientCapabilities.
  destruct e as [ raw | method handler | method params | method params
                | params session | ]; simpl.
  - unfold Server.onmessage.
    destruct (isJSONRPCResponse raw || isJSONRPCError raw).
    { left. unfold Server._onresponse.
      destruct (Server.id_of (prop raw "id")) as [id | ]; [ | reflexivity ].
      now destruct (decide (id ∈ Server._pending s)). }
    destruct (isJSONRPCRequest raw).
    { unfold Server._onrequest.
      destruct (prop raw "method") as [ | | | | method | | ];
        try (now left).
      destruct (Server._requestHandlers s !! method) as [ [ | | | f ] | ].
      - destruct (isInitializeRequest raw) eqn:Hi.
        + right. exists raw. split; [ reflexivity | ]. split; [ exact Hi | ].
          unfold Server._oninitialize.
          now rewrite (proj1 (proj2 (send_keeps _ _))).
        + left. apply send_keeps.
      - left. apply send_keeps.
      - left. destruct (z.parse SetLevelRequestSchema raw);
          [ | apply send_keeps ].
        rewrite (proj1 (proj2 (send_keeps _ _))).
        now destruct (LoggingLevelSchema
                        (VStr (Server.level_of (prop raw "params")))).
      - left. destruct (f raw); apply send_keeps.
      - left. apply send_keeps. }
    left. destruct (isJSONRPCNotification raw); [ | reflexivity ].
    unfold Server._onnotification.
    destruct (isInitializedNotification raw); [ | reflexivity ].
    now destruct (Server._state s).
  - left. unfold Server.exec, Server.setRequestHandler_call, Server.bind,
      Server.check, Server.update.
    now destruct (Server.assertRequestHandlerCapability s method).
  - left. unfold Server.exec, Server.request_call, Server.bind, Server.read,
      Server.update, Server.throw, Server.gate.
    destruct (Server._transport s); [ | reflexivity ].
    destruct (Server.assertCapabilityForMethod s method);
      [ | destruct (Server._enforceStrictCapabilities s) ]; simpl;
      try reflexivity; now rewrite (proj1 (proj2 (send_keeps _ _))).
  - left. unfold Server.exec, Server.notification_call, Server.bind,
      Server.read, Server.check, Server.update, Server.throw.
    destruct (Server._transport s); [ | reflexivity ].
    destruct (Server.assertNotificationCapability s method); simpl;
      [ apply send_keeps | reflexivity ].
  - left. unfold Server.exec, Server.sendLoggingMessage_call, Server.bind,
      Server.read, Server.ret.
    destruct (Server.isMessageIgnored s (Server.level_of params) session);
      [ reflexivity | ].
    unfold Server.notification_call, Server.bind, Server.read, Server.check,
      Server.update, Server.throw.
    destruct (Server._transport s); [ | reflexivity ].
    destruct (Server.assertNotificationCapability s "notifications/message");
      simpl; [ apply send_keeps | reflexivity ].
  - now left.
Qed.

Lemma run_keeps_clientCapabilities (es : list Server.event) (s : Server.t) :
  forallb (fun e => negb (Server.delivers_initialize e)) es = true ->
  Server.getClientCapabilities (Server.run s es)
  = Server.getClientCapabilities s.
Proof.
  revert s. induction es as [| e es IH]; intros s H; [ reflexivity | ].
  simpl in H. apply andb_prop in H as [He Hes].
  unfold Server.run. simpl. fold (Server.run (Server.step s e) es).
  rewrite (IH _ Hes).
  destruct (step_clientCapabilities s e) as [Hkeep | (raw & -> & Hi & _)];
    [ exact Hkeep | ].
  simpl in He. now rewrite Hi in He.
Qed.

Lemma run_clientCapabilities (es : list Server.event) (s : Server.t)
  (capabilities : value) :
  Server.getClientCapabilities (Server.run s es) = Some capabilities ->
  Server.getClientCapabilities s = Some capabilities
  \/ exists raw,
       In (Server.receive raw) es
       /\ isInitializeRequest raw = true
       /\ capabilities = prop (prop raw "params") "capabilities".
Proof.
  revert s. induction es as [| e es IH]; intros s H; [ now left | ].
  unfold Server.run in H. simpl in H. fold (Server.run (Server.step s e) es) in H.
  destruct (IH _ H) as [Hstep | (raw & Hin & Hi & Heq)].
  - destruct (step_clientCapabilities s e) as [Hkeep | (raw & -> & Hi & Hrec)].
    + left. congruence.
    + right. exists raw. split; [ now left | ]. split; [ exact Hi | congruence ].
  - right. exists raw. split; [ now right | ]. split; assumption.
Qed.



(** ** Further properties of the schemas of [types.ts] *)

(** [JSONRPCMessageSchema], the union of the four schemas, accepts exactly
    the values that have one shape, and such a value has no second one. *)
Theorem message_schema_one_shape (v : value) :
  JSONRPCMessageSchema v = true <-> exists shape, shapes_of v = [ shape ].
Proof.
  unfold JSONRPCMessageSchema, z.union, shapes_of. simpl.
  fold (isJSONRPCRequest v) (isJSONRPCNotification v) (isJSONRPCResponse v)
    (isJSONRPCError v).
  destruct (isJSONRPCRequest v) eqn:Hq, (isJSONRPCNotification v) eqn:Hn,
    (isJSONRPCResponse v) eqn:Hr, (isJSONRPCError v) eqn:He; simpl.
  all: try (exfalso;
            pose proof (classifier_exclusive Request Notification v Hq Hn);
            discriminate).
  all: try (exfalso;
            pose proof (classifier_exclusive Request Response v Hq Hr);
            discriminate).
  all: try (exfalso;
            pose proof (classifier_exclusive Request ErrorResponse v Hq He);
            discriminate).
  all: try (exfalso;
            pose proof (classifier_exclusive Notification Response v Hn Hr);
            discriminate).
  all: try (exfalso;
            pose proof
              (classifier_exclusive Notification ErrorResponse v Hn He);
            discriminate).
  all: try (exfalso;
            pose proof (classifier_exclusive Response ErrorResponse v Hr He);
            discriminate).
  all: split; intros H; try reflexivity; try discriminate; eauto.
  destruct H as [shape H]. discriminate.
Qed.

(** Every value that a classifier accepts is a plain object whose
    [jsonrpc] is the string "2.0". *)
Theorem classified_is_jsonrpc_2_0 (shape : Shape) (v : value) :
  classifier shape v = true ->
  exists o, v = VObj o /\ get o "jsonrpc" = VStr JSONRPC_VERSION.
Proof.
  intros H.
  assert (Hobj : exists o, v = VObj o)
    by (destruct shape; exact (parse_object _ _ H)).
  destruct Hobj as [o ->]. exists o. split; [ reflexivity | ].
  apply literal_eq.
  destruct shape; cbn [classifier] in H;
    apply (parse_field _ _ "jsonrpc" _ H); simpl; now left.
Qed.

Lemma classified_is_jsonrpc_2_0_witness :
  exists o,
    Tests.initialize "invalid-version" = VObj o
    /\ get o "jsonrpc" = VStr JSONRPC_VERSION.
Proof.
  apply (classified_is_jsonrpc_2_0 Request). reflexivity.
Defined.

(** The four schemas are strict: a value that has any key other than
    jsonrpc, id, method, params, result and error has no shape. *)
Theorem unknown_key_unclassifiable (v : value) (key : string) :
  has_key v key = true ->
  existsb (String.eqb key)
    [ "jsonrpc"; "id"; "method"; "params"; "result"; "error" ] = false ->
  shapes_of v = [].
Proof.
  intros Hhas Hout. simpl in Hout.
  repeat (apply orb_false_elim in Hout as [? Hout]).
  assert (Hnone : forall shape, classifier shape v = false).
  { intros shape.
    destruct (classifier shape v) eqn:Hacc; [ exfalso | reflexivity ].
    assert (Hobj : exists o, v = VObj o)
      by (destruct shape; exact (parse_object _ _ Hacc)).
    destruct Hobj as [o ->]. simpl in Hhas.
    assert (Hno : has o key = false).
    { destruct shape; cbn [classifier] in Hacc;
        apply (strict_rejects _ _ _ Hacc); simpl;
        repeat match goal with
               | E : String.eqb key _ = false |- _ => rewrite E; clear E
               end; reflexivity. }
    congruence. }
  unfold shapes_of. cbn -[classifier].
  rewrite (Hnone Request), (Hnone Notification), (Hnone Response),
    (Hnone ErrorResponse). reflexivity.
Qed.

Lemma unknown_key_unclassifiable_witness :
  shapes_of (VObj [ ("jsonrpc", VStr "2.0"); ("method", VStr "ping");
                    ("extra", VNull) ]) = [].
Proof.
  apply (unknown_key_unclassifiable _ "extra"); reflexivity.
Defined.

(** What the schema of a request id accepts: a string, or a number that
    is an integer. *)
Lemma requestId_cases (v : value) :
  RequestIdSchema v = true ->
  (exists s, v = VStr s)
  \/ (exists n, v = VNum n /\ Number_isInteger n = true).
Proof.
  unfold RequestIdSchema, z.union, z.int. simpl.
  destruct v; simpl; try discriminate; [ | eauto ].
  intros H. right. exists n. split; [ reflexivity | ].
  rewrite orb_false_r in H. now apply andb_prop in H as [_ H].
Qed.

(** A request, a response and an error response carry an id that is a
    string or an integer: with a null, boolean, fractional or structured
    id, or with none, a message is none of the three. *)
Theorem classified_id_string_or_integer (shape : Shape) (v : value) :
  shape <> Notification ->
  classifier shape v = true ->
  (exists s, prop v "id" = VStr s)
  \/ (exists n, prop v "id" = VNum n /\ Number_isInteger n = true).
Proof.
  intros Hshape H.
  assert (Hobj : exists o, v = VObj o)
    by (destruct shape; exact (parse_object _ _ H)).
  destruct Hobj as [o ->]. simpl. apply requestId_cases.
  destruct shape; cbn [classifier] in H; try congruence;
    apply (parse_field _ _ "id" _ H); simpl; right; now left.
Qed.

Lemma classified_id_string_or_integer_witness :
  (exists s, prop (Tests.initialize "invalid-version") "id" = VStr s)
  \/ (exists n, prop (Tests.initialize "invalid-version") "id" = VNum n
                /\ Number_isInteger n = true).
Proof.
  apply (classified_id_string_or_integer Request);
    [ discriminate | reflexivity ].
Defined.

(** The params of a request or a notification are absent or a plain
    object: positional (array) params, as JSON-RPC 2.0 allows, are not
    accepted. *)
Theorem classified_params_absent_or_object (v : value) :
  isJSONRPCRequest v = true \/ isJSONRPCNotification v = true ->
  prop v "params" = VUndefined \/ exists o, prop v "params" = VObj o.
Proof.
  intros [H | H]; destruct (parse_object _ _ H) as [o ->]; simpl.
  - pose proof (parse_field _ _ "params" _ H
                  (or_intror (or_intror (or_intror (or_introl eq_refl)))))
      as Hp.
    destruct (get o "params"); try discriminate; eauto.
  - pose proof (parse_field _ _ "params" _ H
                  (or_intror (or_intror (or_introl eq_refl)))) as Hp.
    destruct (get o "params"); try discriminate; eauto.
Qed.

Lemma classified_params_absent_or_object_witness :
  prop (Tests.initialize "invalid-version") "params" = VUndefined
  \/ exists o, prop (Tests.initialize "invalid-version") "params" = VObj o.
Proof.
  apply classified_params_absent_or_object. left. reflexivity.
Defined.

(** The result of a response is what [EmptyResultSchema] accepts, a plain
    object whose [_meta], if any, is a plain object; and any such result
    under an id that the id schema accepts makes a response. *)
Theorem response_result_is_empty_result (v id result : value) :
  (isJSONRPCResponse v = true ->
   z.parse EmptyResultSchema (prop v "result") = true
   /\ exists o, prop v "result" = VObj o)
  /\ (RequestIdSchema id = true ->
      z.parse EmptyResultSchema result = true ->
      isJSONRPCResponse
        (VObj [ ("jsonrpc", VStr "2.0"); ("id", id); ("result", result) ])
      = true).
Proof.
  split.
  - intros H. destruct (parse_object _ _ H) as [o ->]. simpl prop.
    pose proof (parse_field _ _ "result" _ H
                  (or_intror (or_intror (or_introl eq_refl)))) as Hr.
    split; [ exact Hr | exact (parse_object _ _ Hr) ].
  - intros Hid Hres. unfold isJSONRPCResponse. simpl.
    rewrite Hid. unfold EmptyResultSchema in Hres.
    destruct result; simpl in Hres; try discriminate.
    simpl. now rewrite Hres.
Qed.

(** The error of an error response is a plain object with an integer
    code and a string message. *)
Theorem error_response_fields (v : value) :
  isJSONRPCError v = true ->
  exists e n s,
    prop v "error" = VObj e
    /\ get e "code" = VNum n /\ Number_isInteger n = true
    /\ get e "message" = VStr s.
Proof.
  intros H. destruct (parse_object _ _ H) as [o ->]. simpl prop.
  pose proof (parse_field _ _ "error" _ H
                (or_intror (or_intror (or_introl eq_refl)))) as He.
  destruct (parse_object _ _ He) as [e Heq]. rewrite Heq in *.
  pose proof (parse_field _ _ "code" _ He (or_introl eq_refl)) as Hc.
  pose proof (parse_field _ _ "message" _ He
                (or_intror (or_introl eq_refl))) as Hm.
  unfold z.int in Hc. apply andb_prop in Hc as [_ Hc].
  destruct (get e "code") as [ | | | n | | | ] eqn:Ec; try discriminate.
  destruct (get e "message") as [ | | | | s | | ] eqn:Em; try discriminate.
  exists e, n, s. repeat split; assumption.
Qed.

Lemma error_response_fields_witness :
  let v := VObj [ ("jsonrpc", VStr "2.0"); ("id", VStr "a");
                  ("error", VObj [ ("code", VNum (num (-32601)));
                                   ("message", VStr "Method not found");
                                   ("detail", VNull) ]) ] in
  exists e n s,
    prop v "error" = VObj e
    /\ get e "code" = VNum n /\ Number_isInteger n = true
    /\ get e "message" = VStr s.
Proof.
  intros v. apply error_response_fields. reflexivity.
Defined.

(** The request schemas are not strict: a key that [InitializeRequestSchema]
    does not name, such as the jsonrpc and id of the framing, is ignored
    by [isInitializeRequest]. *)
Theorem initialize_request_ignores_extra_keys (o : props) (key : string)
  (x : value) :
  key <> "method" -> key <> "params" ->
  isInitializeRequest (VObj ((key, x) :: o)) = isInitializeRequest (VObj o).
Proof.
  intros Hm Hp. apply String.eqb_neq in Hm, Hp.
  unfold isInitializeRequest. simpl. now rewrite Hm, Hp.
Qed.

Lemma initialize_request_ignores_extra_keys_witness :
  isInitializeRequest
    (VObj [ ("id", VNum (num 1)); ("method", VStr "initialize") ])
  = isInitializeRequest (VObj [ ("method", VStr "initialize") ]).
Proof.
  apply initialize_request_ignores_extra_keys; discriminate.
Defined.

(** The three places that list the logging levels agree: the level of a
    logging/setLevel request and the level of a logging message that their
    schemas accept are levels of [LoggingLevelSchema], and each of its
    levels makes a request and a message that are accepted. *)
Theorem logging_level_schemas_agree (v : value) (level : string) :
  (z.parse SetLevelRequestSchema v = true
   \/ z.parse LoggingMessageNotificationSchema v = true ->
   LoggingLevelSchema (prop (prop v "params") "level") = true)
  /\ (LoggingLevelSchema (VStr level) = true ->
      z.parse SetLevelRequestSchema
        (VObj [ ("method", VStr "logging/setLevel");
                ("params", VObj [ ("level", VStr level) ]) ]) = true
      /\ z.parse LoggingMessageNotificationSchema
           (VObj [ ("method", VStr "notifications/message");
                   ("params", VObj [ ("level", VStr level);
                                     ("data", VNull) ]) ]) = true).
Proof.
  split.
  - intros [H | H]; destruct (parse_object _ _ H) as [o ->]; simpl prop.
    + pose proof (parse_field _ _ "params" _ H
                    (or_intror (or_introl eq_refl))) as Hp.
      destruct (parse_object _ _ Hp) as [params Heq]. rewrite Heq in *.
      exact (parse_field _ _ "level" _ Hp (or_intror (or_introl eq_refl))).
    + pose proof (parse_field _ _ "params" _ H
                    (or_intror (or_introl eq_refl))) as Hp.
      destruct (parse_object _ _ Hp) as [params Heq]. rewrite Heq in *.
      exact (parse_field _ _ "level" _ Hp (or_intror (or_introl eq_refl))).
  - intros H. unfold LoggingLevelSchema, LoggingLevel_options in H.
    split; simpl; simpl in H; now rewrite H.
Qed.

(** A progress notification that its schema accepts carries a token that
    is a string or an integer and a progress that is a number, never NaN;
    the progress need not be an integer. *)
Theorem progress_notification_fields (v : value) :
  z.parse ProgressNotificationSchema v = true ->
  ((exists s, prop (prop v "params") "progressToken" = VStr s)
   \/ (exists n, prop (prop v "params") "progressToken" = VNum n
                 /\ Number_isInteger n = true))
  /\ exists p, prop (prop v "params") "progress" = VNum p /\ p <> NaN.
Proof.
  intros H. destruct (parse_object _ _ H) as [o ->]. simpl prop.
  pose proof (parse_field _ _ "params" _ H (or_intror (or_introl eq_refl)))
    as Hp.
  destruct (parse_object _ _ Hp) as [params Heq]. rewrite Heq in *.
  simpl prop. split.
  - apply requestId_cases.
    exact (parse_field _ _ "progressToken" _ Hp
             (or_intror (or_introl eq_refl))).
  - pose proof (parse_field _ _ "progress" _ Hp
                  (or_intror (or_intror (or_introl eq_refl)))) as Hn.
    destruct (get params "progress") as [ | | | p | | | ] eqn:E;
      try discriminate.
    exists p. split; [ reflexivity | ].
    intros ->. discriminate.
Qed.

(** Half of the work done, under token 7. *)
Lemma progress_notification_fields_witness :
  let v := VObj [ ("method", VStr "notifications/progress");
                  ("params", VObj [ ("progressToken", VNum (num 7));
                                    ("progress", VNum (Dyadic 1 (-1))) ]) ] in
  ((exists s, prop (prop v "params") "progressToken" = VStr s)
   \/ (exists n, prop (prop v "params") "progressToken" = VNum n
                 /\ Number_isInteger n = true))
  /\ exists p, prop (prop v "params") "progress" = VNum p /\ p <> NaN.
Proof.
  intros v. apply progress_notification_fields. reflexivity.
Defined.

(** ** Further properties of the initiator of [__mocks__/client.ts] *)

Lemma last_request_call (c : Client.t) (k : Client.Call) :
  last_request (Client.call c k) = request_object k.
Proof.
  unfold last_request, Client.call. cbn [Client.calls].
  rewrite List.map_app. cbn [map]. now rewrite last_last.
Qed.

Lemma last_request_connect (c : Client.t) :
  exists params,
    last_request (Client.connect c)
    = VObj [ ("method", VStr "initialize"); ("params", VObj params) ]
    /\ get params "protocolVersion" = VStr LATEST_PROTOCOL_VERSION
    /\ get params "capabilities"
       = match Client._capabilities c with Some v => v | None => VObj [] end
    /\ get params "clientInfo" = Implementation_value (Client._clientInfo c)
    /\ get params "_meta" = VUndefined.
Proof.
  eexists. unfold last_request, Client.connect. cbn [Client.calls].
  rewrite List.map_app. cbn [map]. rewrite last_last. simpl. repeat split.
Qed.

(** The request that [connect] issues is an initialize request for
    [isInitializeRequest], whatever capabilities object the client was
    given (or none), and it proposes the latest protocol version, which
    is a supported one. *)
Theorem connect_issues_initialize_request (c : Client.t) :
  match Client._capabilities c with
  | Some (VObj _) | None => True
  | Some _ => False
  end ->
  isInitializeRequest (last_request (Client.connect c)) = true
  /\ prop (prop (last_request (Client.connect c)) "params") "protocolVersion"
     = VStr LATEST_PROTOCOL_VERSION
  /\ In LATEST_PROTOCOL_VERSION SUPPORTED_PROTOCOL_VERSIONS.
Proof.
  intros Hcaps.
  destruct (last_request_connect c) as (params & -> & Hv & Hc & Hi & Hm).
  split; [ | split; [ exact Hv | now left ] ].
  unfold isInitializeRequest. simpl.
  rewrite Hm, Hv, Hc, Hi. simpl.
  destruct (Client._capabilities c) as [[ | | | | | | caps] | ];
    try destruct Hcaps; reflexivity.
Qed.

Lemma connect_issues_initialize_request_witness :
  let c := Client.new Suite.clientInfo
             (Some (VObj [ ("sampling", VObj []) ])) in
  isInitializeRequest (last_request (Client.connect c)) = true
  /\ prop (prop (last_request (Client.connect c)) "params") "protocolVersion"
     = VStr LATEST_PROTOCOL_VERSION
  /\ In LATEST_PROTOCOL_VERSION SUPPORTED_PROTOCOL_VERSIONS.
Proof.
  intros c. apply connect_issues_initialize_request. exact I.
Defined.

(** [setLoggingLevel] takes any string; the request it issues is one that
    [SetLevelRequestSchema] accepts exactly when the string is one of the
    eight logging levels. *)
Theorem setLoggingLevel_request_valid_iff (c : Client.t) (level : string) :
  z.parse SetLevelRequestSchema (last_request (Client.setLoggingLevel c level))
  = true
  <-> In level LoggingLevel_options.
Proof.
  unfold Client.setLoggingLevel. rewrite last_request_call.
  destruct (logging_level_schemas_agree
              (request_object
                 (Client.request "logging/setLevel"
                    (Some (VObj [ ("level", VStr level) ])))) level)
    as [Hto Hfrom].
  split.
  - intros H. apply enum_In. exact (Hto (or_introl H)).
  - intros Hin. apply Hfrom.
    unfold LoggingLevelSchema, z.enum. apply existsb_exists.
    exists level. split; [ exact Hin | apply String.eqb_refl ].
Qed.

(** [callTool] hands its params on as they are; the request is one that
    [CallToolRequestSchema] accepts only if the name is a string and the
    arguments are absent or a plain object. *)
Theorem callTool_request_valid_only_if (c : Client.t) (params : value) :
  z.parse CallToolRequestSchema (last_request (Client.callTool c params))
  = true ->
  (exists tool, prop params "name" = VStr tool)
  /\ (prop params "arguments" = VUndefined
      \/ exists o, prop params "arguments" = VObj o).
Proof.
  unfold Client.callTool. rewrite last_request_call. simpl request_object.
  intros H.
  pose proof (parse_field _ _ "params" _ H (or_intror (or_introl eq_refl)))
    as Hp. simpl get in Hp.
  destruct (parse_object _ _ Hp) as [o ->]. simpl prop.
  pose proof (parse_field _ _ "name" _ Hp (or_intror (or_introl eq_refl)))
    as Hn.
  pose proof (parse_field _ _ "arguments" _ Hp
                (or_intror (or_intror (or_introl eq_refl)))) as Ha.
  split.
  - destruct (get o "name"); try discriminate. eauto.
  - destruct (get o "arguments"); try discriminate; eauto.
Qed.

Lemma callTool_request_valid_only_if_witness :
  let params := VObj [ ("name", VStr "echo");
                       ("arguments", VObj [ ("text", VStr "hi") ]) ] in
  (exists tool, prop params "name" = VStr tool)
  /\ (prop params "arguments" = VUndefined
      \/ exists o, prop params "arguments" = VObj o).
Proof.
  intros params.
  apply (callTool_request_valid_only_if (Client.new Suite.clientInfo None)).
  reflexivity.
Defined.

(** [connect] never checks the protocol version that the server proposes.
    A result that the schema of [connect] accepts carries some version
    string, and whatever that string is, in the supported set or not, the
    capabilities of the result are recorded, the initialized notification
    is sent and [connect] returns. *)
Theorem connect_adopts_any_version (c : Client.t) (initResponse : value) :
  Client.connecting c = true ->
  z.parse Client.InitializeResultSchema initResponse = true ->
  let c' := Client.connect_resume c (Returns initResponse) in
  (exists proposed, prop initResponse "protocolVersion" = VStr proposed)
  /\ Client.getServerCapabilities c'
     = Some (prop initResponse "capabilities")
  /\ Client.calls c'
     = (Client.calls c
        ++ [ Client.notification "notifications/initialized" ])%list
  /\ Client.connecting c' = false.
Proof.
  intros Hc Hr. split.
  - destruct (parse_object _ _ Hr) as [o ->].
    pose proof (parse_field _ _ "protocolVersion" _ Hr (or_introl eq_refl))
      as Hv.
    simpl. simpl in Hv.
    destruct (get o "protocolVersion"); try discriminate.
    eexists; reflexivity.
  - unfold Client.connect_resume, Client.resolves. rewrite Hc, Hr.
    repeat split.
Qed.

(** A result that proposes "invalid-version", which is not a supported
    version, is adopted by a client suspended in [connect]. *)
Lemma connect_adopts_any_version_witness :
  let initResponse :=
    VObj [ ("protocolVersion", VStr "invalid-version");
           ("capabilities", VObj [ ("tools", VObj []) ]);
           ("serverInfo", VObj [ ("name", VStr "test server");
                                 ("version", VStr "1.0") ]) ] in
  let c := Client.connect (Client.new Suite.clientInfo None) in
  let c' := Client.connect_resume c (Returns initResponse) in
  ~ In "invalid-version" SUPPORTED_PROTOCOL_VERSIONS
  /\ (exists proposed, prop initResponse "protocolVersion" = VStr proposed)
  /\ Client.getServerCapabilities c'
     = Some (prop initResponse "capabilities")
  /\ Client.calls c'
     = (Client.calls c
        ++ [ Client.notification "notifications/initialized" ])%list
  /\ Client.connecting c' = false.
Proof.
  intros initResponse c c'. split.
  - simpl. intros [H | [H | [H | [H | []]]]]; discriminate.
  - apply (connect_adopts_any_version c initResponse); reflexivity.
Defined.

Lemma initialized_sent_snoc (c c' : Client.t) (k : Client.Call) :
  Client.calls c' = (Client.calls c ++ [ k ])%list ->
  initialized_sent c'
  = (initialized_sent c + if is_initialized k then 1 else 0)%nat.
Proof.
  intros H. unfold initialized_sent.
  rewrite H, List.filter_app, length_app. simpl.
  now destruct (is_initialized k).
Qed.

Lemma call_handshake (c : Client.t) (method : string) (params : option value) :
  handshake_consistent c ->
  handshake_consistent (Client.call c (Client.request method params))
  /\ initialized_sent (Client.call c (Client.request method params))
     = initialized_sent c.
Proof.
  intros [Hinfo Hsent].
  assert (Hn : initialized_sent (Client.call c (Client.request method params))
               = initialized_sent c).
  { rewrite (initialized_sent_snoc c
               (Client.call c (Client.request method params))
               (Client.request method params) eq_refl).
    simpl. lia. }
  split; [ | exact Hn ]. split; [ exact Hinfo | ]. now rewrite Hn.
Qed.

Lemma step_handshake (c : Client.t) (e : Client.event) :
  handshake_consistent c ->
  handshake_consistent (Client.step c e)
  /\ (initialized_sent (Client.step c e)
      <= initialized_sent c
         + (if Client.delivers_result e then 1 else 0))%nat.
Proof.
  intros Hc. pose proof Hc as [Hinfo Hsent].
  destruct e as [ | [r | err] | | | | | | | ]; simpl;
    try (match goal with
         | |- handshake_consistent ?c' /\ _ =>
             unfold Client.setLoggingLevel, Client.listTools,
               Client.listPrompts, Client.listResources,
               Client.listResourceTemplates, Client.readResource,
               Client.callTool;
             match goal with
             | |- context [Client.call c (Client.request ?m ?p)] =>
                 destruct (call_handshake c m p Hc) as [Hh Hl];
                 split; [ exact Hh | lia ]
             end
         end).
  - assert (Hn : initialized_sent (Client.connect c) = initialized_sent c).
    { rewrite (initialized_sent_snoc c (Client.connect c) _ eq_refl).
      simpl. lia. }
    split; [ | lia ]. split; [ exact Hinfo | ]. now rewrite Hn.
  - unfold Client.connect_resume, Client.resolves.
    destruct (Client.connecting c); [ | split; [ exact Hc | lia ] ].
    destruct (z.parse Client.InitializeResultSchema r);
      [ | split; [ exact Hc | unfold initialized_sent; simpl; lia ] ].
    match goal with
    | |- handshake_consistent ?c' /\ _ =>
        assert (Hn : initialized_sent c' = (initialized_sent c + 1)%nat)
          by (rewrite (initialized_sent_snoc c c'
                         (Client.notification "notifications/initialized")
                         eq_refl); reflexivity)
    end.
    split; [ | lia ].
    split; simpl; split; intros _; try (eexists; reflexivity).
    rewrite Hn. lia.
  - unfold Client.connect_resume, Client.resolves.
    destruct (Client.connecting c);
      (split; [ exact Hc | unfold initialized_sent; simpl; lia ]).
Qed.

Lemma run_handshake (es : list Client.event) (c : Client.t) :
  handshake_consistent c ->
  handshake_consistent (Client.run c es)
  /\ (initialized_sent (Client.run c es)
      <= initialized_sent c + results_delivered es)%nat.
Proof.
  revert c. induction es as [| e es IH]; intros c Hc.
  - split; [ exact Hc | unfold results_delivered; simpl; lia ].
  - destruct (step_handshake c e Hc) as [Hstep Hle].
    destruct (IH _ Hstep) as [Hrun Hle'].
    unfold Client.run in *. simpl fold_left.
    split; [ exact Hrun | ].
    unfold results_delivered in *. simpl.
    destruct (Client.delivers_result e); simpl in *; lia.
Qed.


Lemma snoc_split {A : Type} (l before rest : list A) (k x : A) :
  (l ++ [ k ])%list = (before ++ x :: rest)%list ->
  (rest = [] /\ l = before /\ k = x)
  \/ exists rest', rest = (rest' ++ [ k ])%list
                   /\ l = (before ++ x :: rest')%list.
Proof.
  intros H. induction rest as [| y rest' _] using rev_ind.
  - left. apply app_inj_tail in H as [H1 H2]. now subst.
  - right. exists rest'.
    change (before ++ x :: rest' ++ [ y ])%list
      with (before ++ (x :: rest') ++ [ y ])%list in H.
    rewrite app_assoc in H. apply app_inj_tail in H as [H1 H2].
    now subst.
Qed.

(** One more call keeps the order, if an initialized notification is only
    appended while [connect] is suspended and [connect] is only suspended
    by issuing an initialize request. *)
Lemma handshake_ordered_snoc (c c' : Client.t) (k : Client.Call) :
  handshake_ordered c ->
  Client.calls c' = (Client.calls c ++ [ k ])%list ->
  (k = Client.notification "notifications/initialized" ->
   Client.connecting c = true) ->
  (Client.connecting c' = true ->
   Client.connecting c = true
   \/ exists params, k = Client.request "initialize" params) ->
  handshake_ordered c'.
Proof.
  intros [Hconn Hord] Hcalls Hk Hc'. split.
  - intros H. rewrite Hcalls.
    destruct (Hc' H) as [Hc | [params ->]].
    + destruct (Hconn Hc) as [params Hin]. exists params.
      apply in_or_app. now left.
    + exists params. apply in_or_app. right. now left.
  - intros before rest H. rewrite Hcalls in H.
    apply snoc_split in H as [(-> & <- & ->) | (rest' & -> & H)].
    + exact (Hconn (Hk eq_refl)).
    + exact (Hord _ _ H).
Qed.

Lemma step_handshake_ordered (c : Client.t) (e : Client.event) :
  handshake_ordered c -> handshake_ordered (Client.step c e).
Proof.
  intros Hc.
  assert (Hcall : forall m p,
            handshake_ordered (Client.call c (Client.request m p))).
  { intros m p.
    apply (handshake_ordered_snoc c (Client.call c (Client.request m p))
             (Client.request m p) Hc eq_refl);
      [ discriminate | intros H; left; exact H ]. }
  destruct e as [ | [r | err] | | | | | | | ]; simpl;
    try apply Hcall.
  - apply (handshake_ordered_snoc c (Client.connect c) _ Hc eq_refl);
      [ discriminate | intros _; right; eexists; reflexivity ].
  - unfold Client.connect_resume, Client.resolves.
    destruct (Client.connecting c) eqn:Hconn; [ | exact Hc ].
    destruct (z.parse Client.InitializeResultSchema r).
    + match goal with
      | |- handshake_ordered ?c' =>
          apply (handshake_ordered_snoc c c'
                   (Client.notification "notifications/initialized") Hc
                   eq_refl)
      end; [ intros _; exact Hconn | simpl; discriminate ].
    + destruct Hc as [_ Hord]. split; [ simpl; discriminate | exact Hord ].
  - unfold Client.connect_resume, Client.resolves.
    destruct (Client.connecting c); [ | exact Hc ].
    destruct Hc as [_ Hord]. split; [ simpl; discriminate | exact Hord ].
Qed.


